(** * EvoPy: the generational loop of the evolutionary-strategy engine

    A shallow embedding of [evopy/evopy.py] (class [EvoPy]) and the
    properties of its generation loop: population initialisation, aging,
    evaluation and truncation selection, early stopping and evaluation
    counting.

    Conventions of the embedding.
    - Python floats are modelled by exact rationals [Q]; the engine itself
      only compares fitness values, subtracts them and takes an absolute
      value.  A fitness value, which comes out of the caller's fitness
      function, is a [Float]: a real number or NaN.  Python integers are
      [Z].
    - The engine object, the shared random generator, the wall clock and
      the reporter callback are mutable; they are threaded through a
      state-and-exception monad [M] whose state survives a raised
      exception, as the effects of a Python program do.
    - The collaborators that live outside [evopy.py] (the fitness function,
      [Individual.reproduce], the numpy generator, [time.time], [np.mean]
      and [np.std]) are the fields of an environment [Env].  They are
      functions that return: an exception raised inside a collaborator
      would propagate out of [run] and is not modelled.
    - The built-in [sorted] is the stable sort where the keys are real
      numbers.  Where a key is NaN every comparison with it is false and
      the result is only known to be a rearrangement of the input; the
      environment says which one. *)

From Stdlib Require Import String.
From Stdlib Require Import List ZArith QArith Qabs Bool Lia.
From Stdlib Require Import Sorted Permutation.
Import ListNotations.

Local Open Scope Z_scope.

(** ** Data model *)

(** A Python value the engine never inspects. *)
Inductive PyValue : Type :=
| PyNone
| PyInt (z : Z)
| PyStr (s : string).

(** Modelled from the spec: the enumeration [Strategy] of
    [evopy/strategy.py], with its three recognised granularities.  The
    constructor argument of [EvoPy] is untyped, so any other value may be
    passed as well; [NotAStrategy] stands for such a value. *)
Inductive Strategy : Type :=
| SINGLE_VARIANCE
| MULTIPLE_VARIANCE
| FULL_VARIANCE
| NotAStrategy (v : PyValue).

Definition recognized (s : Strategy) : bool :=
  match s with
  | NotAStrategy _ => false
  | _ => true
  end.

(** Exceptions that the modelled code paths can raise. *)
Inductive Exn : Type :=
| ValueError (msg : string)
| IndexError
| TypeError.

Inductive Result (A : Type) : Type :=
| Ok (a : A)
| Raise (e : Exn).

Arguments Ok {A} a.
Arguments Raise {A} e.

(** A float that the fitness function returns: a real number, or NaN,
    which compares false with everything.  (The infinities are ordered
    like real numbers and are left out.) *)
Inductive Float : Type :=
| Real (q : Q)
| NaN.

(** Modelled from the spec: the class [Individual] of
    [evopy/individual.py], which is not part of the sources at hand.  A
    candidate owns a genotype, its strategy state, an age counter that
    starts at 0 and a cached fitness that is undefined until evaluated. *)
Record Individual : Type := mkIndividual {
  genotype : list Q;
  ind_strategy : Strategy;
  strategy_parameters : list Q;
  ind_bounds : option (Q * Q);
  ind_forces_config : PyValue;
  ind_mutation_rate : Q;
  age : nat;
  fitness : option Float
}.

Definition set_age (i : Individual) (a : nat) : Individual :=
  {| genotype := genotype i; ind_strategy := ind_strategy i;
     strategy_parameters := strategy_parameters i; ind_bounds := ind_bounds i;
     ind_forces_config := ind_forces_config i;
     ind_mutation_rate := ind_mutation_rate i;
     age := a; fitness := fitness i |}.

Definition set_fitness (i : Individual) (v : Float) : Individual :=
  {| genotype := genotype i; ind_strategy := ind_strategy i;
     strategy_parameters := strategy_parameters i; ind_bounds := ind_bounds i;
     ind_forces_config := ind_forces_config i;
     ind_mutation_rate := ind_mutation_rate i;
     age := age i; fitness := Some v |}.

(** The attributes that [EvoPy.__init__] stores and never changes.  The
    fitness function and the generator are part of [Env] and of the state;
    [reporter] only records whether a callback was supplied. *)
Record EvoPy : Type := mkEvoPy {
  individual_length : Z;
  warm_start : option (list (list Q));
  generations : Z;
  population_size : Z;
  num_children : Z;
  mean : Q;
  std : Q;
  maximize : bool;
  strategy : Strategy;
  reporter : bool;
  target_fitness_value : option Q;
  target_tolerance : Q;
  max_run_time : option Q;
  max_evaluations : option Z;
  bounds : option (Q * Q);
  max_age : Z;
  forces_config : PyValue;
  mutation_rate : Q
}.

(** Modelled from the spec: the record [ProgressReport] of
    [evopy/progress_report.py], with one field per argument that [run]
    passes to its constructor, in that order. *)
Record ProgressReport : Type := mkProgressReport {
  rep_generation : Z;
  rep_evaluations : Z;
  rep_best : Individual;
  rep_best_genotype : list Q;
  rep_best_fitness : option Float;
  rep_avg_fitness : Float;
  rep_std_fitness : Float;
  rep_time_elapsed : Q;
  rep_terminal : bool
}.

(** One completed pass through the body of the generation loop, kept as a
    ghost record: the population the pass started from, what it produced,
    and the values it handed to the reporter. *)
Record Snapshot : Type := mkSnapshot {
  gen_index : Z;
  gen_parents : list Individual;
  gen_children : list Individual;
  gen_survivors : list Individual;
  gen_ranked : list Individual;
  gen_population : list Individual;
  gen_best : Individual;
  gen_evaluations : Z;
  gen_fitness_calls : nat;
  gen_elapsed : option Q;
  gen_should_stop : bool;
  gen_report : option ProgressReport
}.

(** The collaborators of the engine. [now n] is the value of the [n]-th
    call of [time.time()].  [unordered_sort reverse keys] is the order, as
    positions of its input, in which the built-in [sorted] leaves elements
    whose keys include a NaN and so are not totally ordered. *)
Record Env : Type := mkEnv {
  Rng : Type;
  fitness_function : list Q -> Float;
  reproduce : Individual -> Rng -> Individual * Rng;
  randn : nat -> Rng -> list Q * Rng;
  normal : Q -> Q -> nat -> Rng -> list Q * Rng;
  now : nat -> Q;
  np_mean : list Float -> Float;
  np_std : list Float -> Float;
  unordered_sort : bool -> list Float -> list nat
}.

(** ** Comparisons and list helpers *)

Definition Qltb (a b : Q) : bool := negb (Qle_bool b a).

(** [a < b] on floats: false as soon as one side is NaN. *)
Definition float_lt (a b : Float) : bool :=
  match a, b with
  | Real x, Real y => Qltb x y
  | _, _ => false
  end.

(** [abs(f - target) < tolerance] for a float [f]. *)
Definition within_tolerance (f : Float) (target tolerance : Q) : bool :=
  match f with
  | Real q => Qltb (Qabs (q - target)) tolerance
  | NaN => false
  end.

(** [np.clip x lo hi] is [minimum (maximum x lo) hi]. *)
Definition np_clip (lo hi x : Q) : Q :=
  let y := if Qle_bool lo x then x else lo in
  if Qle_bool y hi then y else hi.

Definition clip_rows (b : option (Q * Q)) (rows : list (list Q)) : list (list Q) :=
  match b with
  | None => rows
  | Some (lo, hi) => map (map (np_clip lo hi)) rows
  end.

(** [l[:k]] for a Python integer [k]: a negative [k] counts from the end. *)
Definition slice_to {A : Type} (k : Z) (l : list A) : list A :=
  if k <? 0 then firstn (Z.to_nat (Z.of_nat (length l) + k)) l
  else firstn (Z.to_nat k) l.

(** [range(n)] *)
Definition range (n : Z) : list Z :=
  map Z.of_nat (seq 0 (Z.to_nat n)).

(** ** [sorted(..., key=..., reverse=...)]

    The keys are computed once per element.  On keys that are real numbers
    the sort is stable in both directions: elements with equal keys keep
    their original order.  On keys that include a NaN the comparisons are
    not those of a total order, and the result is some rearrangement of the
    input, which the environment supplies. *)

Definition key_le (reverse : bool) (a b : Q) : bool :=
  if reverse then Qle_bool b a else Qle_bool a b.

Fixpoint insert_keyed {A : Type} (reverse : bool) (x : Q * A) (l : list (Q * A))
  : list (Q * A) :=
  match l with
  | [] => [x]
  | y :: l' =>
      if key_le reverse (fst x) (fst y) then x :: y :: l'
      else y :: insert_keyed reverse x l'
  end.

Definition sort_keyed {A : Type} (reverse : bool) (l : list (Q * A)) : list (Q * A) :=
  fold_right (insert_keyed reverse) [] l.

(** The keys of a list as real numbers, when none of them is NaN. *)
Fixpoint real_keys {A : Type} (l : list (Float * A)) : option (list (Q * A)) :=
  match l with
  | [] => Some []
  | (Real q, x) :: l' =>
      match real_keys l' with
      | Some keyed => Some ((q, x) :: keyed)
      | None => None
      end
  | (NaN, _) :: _ => None
  end.

(** [order] lists every position below [n] and has [n] entries. *)
Definition is_rearrangement (n : nat) (order : list nat) : bool :=
  (length order =? n)%nat &&
  forallb (fun i => existsb (Nat.eqb i) order) (seq 0 n).

(** The elements of [l] in the given order of positions; [sorted] returns
    its input rearranged, whatever the comparisons answer. *)
Definition rearrange {A : Type} (order : list nat) (l : list A) : list A :=
  if is_rearrangement (length l) order
  then flat_map (fun i => match nth_error l i with
                          | Some x => [x]
                          | None => []
                          end) order
  else l.

Definition sorted_keyed {A : Type} (unordered : bool -> list Float -> list nat)
    (reverse : bool) (l : list (Float * A)) : list (Float * A) :=
  match real_keys l with
  | Some keyed => map (fun p => (Real (fst p), snd p)) (sort_keyed reverse keyed)
  | None => rearrange (unordered reverse (map fst l)) l
  end.

(** ** The mutable state and its monad *)

(** What a run reads and writes: the shared generator [self.random], the
    counter [self.evaluations], the number of [time.time()] calls made so
    far, and the reports delivered to the reporter.  [fitness_calls] and
    [history] are ghost fields: the number of calls of the fitness function
    and the record of the completed generations. *)
Record World (E : Env) : Type := mkWorld {
  random : Rng E;
  evaluations : Z;
  clock_calls : nat;
  fitness_calls : nat;
  reported : list ProgressReport;
  history : list Snapshot
}.

Arguments random {E} w.
Arguments evaluations {E} w.
Arguments clock_calls {E} w.
Arguments fitness_calls {E} w.
Arguments reported {E} w.
Arguments history {E} w.

(** [EvoPy.__init__] sets [self.evaluations = 0]; nothing has run yet. *)
Definition fresh (E : Env) (r : Rng E) : World E :=
  {| random := r; evaluations := 0; clock_calls := 0; fitness_calls := 0;
     reported := []; history := [] |}.

Definition M (E : Env) (A : Type) : Type := World E -> Result A * World E.

Definition ret (E : Env) (A : Type) (a : A) : M E A := fun w => (Ok a, w).

Definition raise (E : Env) (A : Type) (e : Exn) : M E A := fun w => (Raise e, w).

Definition bind (E : Env) (A B : Type) (c : M E A) (k : A -> M E B) : M E B :=
  fun w =>
    match c w with
    | (Ok a, w') => k a w'
    | (Raise e, w') => (Raise e, w')
    end.

Arguments ret {E A} a.
Arguments raise {E A} e.
Arguments bind {E A B} c k.

Declare Scope evo_scope.
Delimit Scope evo_scope with evo.
Notation "x <- c ;; k" := (bind c (fun x => k))
  (at level 61, c at next level, right associativity) : evo_scope.
Notation "' pat <- c ;; k" := (bind c (fun x => match x with pat => k end))
  (at level 61, pat pattern, c at next level, right associativity) : evo_scope.
Notation "c ;; k" := (bind c (fun _ => k))
  (at level 61, right associativity) : evo_scope.

Section Engine.

Variable E : Env.
Variable self : EvoPy.

Local Open Scope evo_scope.

(** *** Primitive effects *)

Definition time_time : M E Q := fun w =>
  (Ok (now E (clock_calls w)),
   {| random := random w; evaluations := evaluations w;
      clock_calls := S (clock_calls w); fitness_calls := fitness_calls w;
      reported := reported w; history := history w |}).

Definition read_clock_calls : M E nat := fun w => (Ok (clock_calls w), w).

Definition read_evaluations : M E Z := fun w => (Ok (evaluations w), w).

Definition read_fitness_calls : M E nat := fun w => (Ok (fitness_calls w), w).

Definition add_evaluations (n : Z) : M E unit := fun w =>
  (Ok tt,
   {| random := random w; evaluations := evaluations w + n;
      clock_calls := clock_calls w; fitness_calls := fitness_calls w;
      reported := reported w; history := history w |}).

Definition add_fitness_calls (n : nat) : M E unit := fun w =>
  (Ok tt,
   {| random := random w; evaluations := evaluations w;
      clock_calls := clock_calls w; fitness_calls := (fitness_calls w + n)%nat;
      reported := reported w; history := history w |}).

Definition call_reporter (r : ProgressReport) : M E unit := fun w =>
  (Ok tt,
   {| random := random w; evaluations := evaluations w;
      clock_calls := clock_calls w; fitness_calls := fitness_calls w;
      reported := reported w ++ [r]; history := history w |}).

Definition record_generation (s : Snapshot) : M E unit := fun w =>
  (Ok tt,
   {| random := random w; evaluations := evaluations w;
      clock_calls := clock_calls w; fitness_calls := fitness_calls w;
      reported := reported w; history := history w ++ [s] |}).

Definition with_random {A : Type} (f : Rng E -> A * Rng E) : M E A := fun w =>
  let (a, r) := f (random w) in
  (Ok a,
   {| random := r; evaluations := evaluations w;
      clock_calls := clock_calls w; fitness_calls := fitness_calls w;
      reported := reported w; history := history w |}).

(** [self.random.randn(n)]: numpy refuses a negative dimension. *)
Definition draw_randn (n : Z) : M E (list Q) :=
  if n <? 0 then raise (ValueError "negative dimensions are not allowed")
  else with_random (randn E (Z.to_nat n)).

(** [self.random.normal(loc, scale, size)]: numpy refuses a negative scale
    and a negative size. *)
Definition draw_normal (loc scale : Q) (size : Z) : M E (list Q) :=
  if Qltb scale 0 then raise (ValueError "scale < 0")
  else if size <? 0 then raise (ValueError "negative dimensions are not allowed")
  else with_random (normal E loc scale (Z.to_nat size)).

(** [seq[0]] *)
Definition item0 {A : Type} (l : list A) : M E A :=
  match l with
  | [] => raise IndexError
  | x :: _ => ret x
  end.

(** *** [_init_population] *)

Definition not_a_strategy : string :=
  "Provided strategy parameter was not an instance of Strategy".

(** The list comprehension that draws one genotype per member. *)
Fixpoint sample_rows (n : nat) : M E (list (list Q)) :=
  match n with
  | O => ret []
  | S n' =>
      row <- draw_normal 0 (std self) (individual_length self) ;;
      rows <- sample_rows n' ;;
      ret (row :: rows)
  end.

Definition _init_population : M E (list Individual) :=
  strategy_parameters <-
    match strategy self with
    | SINGLE_VARIANCE => draw_randn 1
    | MULTIPLE_VARIANCE => draw_randn (individual_length self)
    | FULL_VARIANCE =>
        draw_randn (Z.quot ((individual_length self + 1) * individual_length self) 2)
    | NotAStrategy _ => raise (ValueError not_a_strategy)
    end ;;
  population_parameters <-
    match warm_start self with
    | None => sample_rows (Z.to_nat (population_size self))
    | Some rows => ret rows
    end ;;
  let population_parameters := clip_rows (bounds self) population_parameters in
  ret (map (fun parameters =>
              mkIndividual parameters (strategy self) strategy_parameters
                (bounds self) (forces_config self) (mutation_rate self) 0 None)
           population_parameters).

(** *** [_age_population] *)

Definition _age_population (population : list Individual) : list Individual :=
  let population :=
    filter (fun i => Z.of_nat (age i) <? max_age self) population in
  map (fun individual => set_age individual (S (age individual))) population.

(** *** Evaluation and ranking *)

(** Modelled from the spec: [Individual.evaluate], which computes the
    fitness of the genotype, caches it in the candidate and returns it. *)
Definition evaluate (i : Individual) : Float * Individual :=
  let v := fitness_function E (genotype i) in (v, set_fitness i v).

(** The key function of [sorted] is called once per element, in order. *)
Definition evaluate_all (l : list Individual) : M E (list (Float * Individual)) :=
  add_fitness_calls (length l) ;;
  ret (map evaluate l).

Definition sorted_by_fitness (l : list Individual) : M E (list Individual) :=
  keyed <- evaluate_all l ;;
  ret (map snd (sorted_keyed (unordered_sort E) (maximize self) keyed)).

(** [[x.fitness for x in population]] handed to numpy: a candidate without
    a fitness makes [np.mean] fail. *)
Fixpoint fitness_values (l : list Individual) : M E (list Float) :=
  match l with
  | [] => ret []
  | i :: l' =>
      match fitness i with
      | None => raise TypeError
      | Some v => vs <- fitness_values l' ;; ret (v :: vs)
      end
  end.

(** *** Reproduction *)

(** [[parent.reproduce() for parent in population]] on the shared generator. *)
Fixpoint reproduce_each (population : list Individual) (r : Rng E)
  : list Individual * Rng E :=
  match population with
  | [] => ([], r)
  | parent :: rest =>
      let (child, r1) := reproduce E parent r in
      let (others, r2) := reproduce_each rest r1 in
      (child :: others, r2)
  end.

(** The outer loop [for _ in range(self.num_children)]. *)
Fixpoint reproduce_rounds (rounds : nat) (population : list Individual) (r : Rng E)
  : list Individual * Rng E :=
  match rounds with
  | O => ([], r)
  | S k =>
      let (first, r1) := reproduce_each population r in
      let (others, r2) := reproduce_rounds k population r1 in
      (first ++ others, r2)
  end.

(** *** [_check_early_stop] *)

Definition _check_early_stop (start_time : Q) (best : Individual) : M E bool :=
  timed_out <-
    match max_run_time self with
    | None => ret false
    | Some limit => t <- time_time ;; ret (Qltb limit (t - start_time))
    end ;;
  if (timed_out : bool) then ret true
  else
    on_target <-
      match target_fitness_value self with
      | None => ret false
      | Some target =>
          match fitness best with
          | None => raise TypeError
          | Some f => ret (within_tolerance f target (target_tolerance self))
          end
      end ;;
    if (on_target : bool) then ret true
    else
      match max_evaluations self with
      | None => ret false
      | Some limit => n <- read_evaluations ;; ret (limit <=? n)
      end.

(** *** [run] *)

(** The body of [for generation in range(self.generations)], up to the
    test of [should_stop]. *)
Definition generation_body (start_time : Q) (generation : Z)
    (population : list Individual) : M E (list Individual * Individual * bool) :=
  children <- with_random (reproduce_rounds (Z.to_nat (num_children self)) population) ;;
  let survivors := _age_population population in
  ranked <- sorted_by_fitness (children ++ survivors) ;;
  add_evaluations (Z.of_nat (length ranked)) ;;
  let population' := slice_to (population_size self) ranked in
  best <- item0 population' ;;
  ticks <- read_clock_calls ;;
  early <- _check_early_stop start_time best ;;
  let should_stop := early || (generation =? generations self - 1) in
  count <- read_evaluations ;;
  report <-
    (if reporter self then
       values <- fitness_values population' ;;
       t <- time_time ;;
       let r := mkProgressReport generation count best (genotype best) (fitness best)
                  (np_mean E values) (np_std E values) (t - start_time) should_stop in
       call_reporter r ;;
       ret (Some r)
     else ret None) ;;
  calls <- read_fitness_calls ;;
  record_generation
    (mkSnapshot generation population children survivors ranked population' best
       count calls
       (match max_run_time self with
        | None => None
        | Some _ => Some (now E ticks - start_time)%Q
        end)
       should_stop report) ;;
  ret (population', best, should_stop).

Fixpoint loop (start_time : Q) (gens : list Z) (population : list Individual)
    (best : Individual) : M E Individual :=
  match gens with
  | [] => ret best
  | generation :: rest =>
      '(population', best', should_stop) <-
        generation_body start_time generation population ;;
      if (should_stop : bool) then ret best'
      else loop start_time rest population' best'
  end.

(** [run] returns [None] for a zero-length genotype and the genotype of
    the last best candidate otherwise. *)
Definition run : M E (option (list Q)) :=
  if individual_length self =? 0 then ret None
  else
    start_time <- time_time ;;
    population <- _init_population ;;
    keyed <- evaluate_all population ;;
    let population := map snd keyed in
    best <- item0 (map snd (sorted_keyed (unordered_sort E) (maximize self) keyed)) ;;
    best <- loop start_time (range (generations self)) population best ;;
    ret (Some (genotype best)).

End Engine.

(** ** [list.sort] on keys that are not totally ordered

    CPython's [list.sort] compares with [<] only.  On fewer than 64
    elements it takes the run at the start of the list (non-descending, or
    strictly descending and then reversed) and puts the remaining elements
    in place by binary insertion; with [reverse=True] it reverses the list
    before and after.  [order] is the resulting order of the positions; it
    stands for the built-in in the concrete environments. *)
Module ListSort.

Definition item : Type := (Float * nat)%type.

Definition lt (a b : item) : bool := float_lt (fst a) (fst b).

(** How far the run that [prev] belongs to goes on. *)
Fixpoint run_length (descending : bool) (prev : item) (rest : list item) : nat :=
  match rest with
  | [] => 0
  | x :: rest' =>
      if Bool.eqb (lt x prev) descending
      then S (run_length descending x rest')
      else 0
  end.

Definition count_run (l : list item) : nat * bool :=
  match l with
  | [] => (0%nat, false)
  | [_] => (1%nat, false)
  | a :: b :: rest =>
      let descending := lt b a in
      ((2 + run_length descending b rest)%nat, descending)
  end.

(** The binary search of [binarysort], between the positions [l] and [r]. *)
Fixpoint bisect (fuel : nat) (pivot : item) (sorted : list item) (l r : nat) : nat :=
  match fuel with
  | O => l
  | S fuel' =>
      if (l <? r)%nat then
        let p := (l + (r - l) / 2)%nat in
        match nth_error sorted p with
        | Some x =>
            if lt pivot x then bisect fuel' pivot sorted l p
            else bisect fuel' pivot sorted (S p) r
        | None => l
        end
      else l
  end.

Definition insert_binary (sorted : list item) (pivot : item) : list item :=
  let pos := bisect (S (length sorted)) pivot sorted 0 (length sorted) in
  firstn pos sorted ++ pivot :: skipn pos sorted.

Definition sort_items (l : list item) : list item :=
  let (n, descending) := count_run l in
  let run := firstn n l in
  fold_left insert_binary (skipn n l) (if descending then rev run else run).

Definition order (reverse : bool) (keys : list Float) : list nat :=
  let items := combine keys (seq 0 (length keys)) in
  let items := if reverse then rev items else items in
  let sorted := sort_items items in
  map snd (if reverse then rev sorted else sorted).

End ListSort.

(** ** A concrete environment

    A deterministic stand-in for the collaborators, used to run the engine
    on explicit inputs: the generator is a counter, [normal] returns
    [loc + scale * counter] in every component, the fitness is the sum of
    squares, a child is its parent moved by one in every coordinate, and
    the clock advances by one second per reading. *)
Module Demo.

Definition sum_squares (g : list Q) : Q :=
  fold_right (fun x acc => x * x + acc)%Q 0%Q g.

(** The real numbers of a list of floats, when none of them is NaN. *)
Fixpoint reals (l : list Float) : option (list Q) :=
  match l with
  | [] => Some []
  | Real q :: l' =>
      match reals l' with
      | Some qs => Some (q :: qs)
      | None => None
      end
  | NaN :: _ => None
  end.

Definition mean_of (l : list Float) : Float :=
  match reals l with
  | Some qs => Real (fold_right Qplus 0 qs / inject_Z (Z.of_nat (length qs)))%Q
  | None => NaN
  end.

Definition shift_child (p : Individual) (r : nat) : Individual * nat :=
  (mkIndividual (map (fun x => x + 1)%Q (genotype p)) (ind_strategy p)
     (strategy_parameters p) (ind_bounds p) (ind_forces_config p)
     (ind_mutation_rate p) 0 None,
   S r).

Definition env : Env :=
  {| Rng := nat;
     fitness_function := fun g => Real (sum_squares g);
     reproduce := shift_child;
     randn := fun n r => (repeat (inject_Z (Z.of_nat r)) n, S r);
     normal := fun loc scale n r =>
                 (repeat (loc + scale * inject_Z (Z.of_nat r))%Q n, S r);
     now := fun n => inject_Z (Z.of_nat n);
     np_mean := mean_of;
     np_std := fun _ => Real 0%Q;
     unordered_sort := ListSort.order |}.

(** The defaults of [EvoPy.__init__], for a genotype of length 1, with a
    reporter. *)
Definition defaults : EvoPy :=
  {| individual_length := 1; warm_start := None; generations := 100;
     population_size := 30; num_children := 1; mean := 0%Q; std := 1%Q;
     maximize := false; strategy := SINGLE_VARIANCE; reporter := true;
     target_fitness_value := None; target_tolerance := (1 # 100000)%Q;
     max_run_time := None; max_evaluations := None; bounds := None;
     max_age := 0; forces_config := PyNone; mutation_rate := 1%Q |}.

Definition configure (cfg : EvoPy) (ws : option (list (list Q))) (gens size : Z)
    (age_limit : Z) : EvoPy :=
  {| individual_length := individual_length cfg; warm_start := ws;
     generations := gens; population_size := size;
     num_children := num_children cfg; mean := mean cfg; std := std cfg;
     maximize := maximize cfg; strategy := strategy cfg;
     reporter := reporter cfg;
     target_fitness_value := target_fitness_value cfg;
     target_tolerance := target_tolerance cfg;
     max_run_time := max_run_time cfg; max_evaluations := max_evaluations cfg;
     bounds := bounds cfg; max_age := age_limit;
     forces_config := forces_config cfg; mutation_rate := mutation_rate cfg |}.

(** One candidate at the origin, two generations, no survivors. *)
Definition drifting : EvoPy := configure defaults (Some [[0%Q]]) 2 1 0.

(** The same start, but candidates may live for five generations. *)
Definition persistent : EvoPy := configure defaults (Some [[0%Q]]) 2 1 5.

(** A zero-length genotype. *)
Definition zero_length : EvoPy :=
  {| individual_length := 0; warm_start := None; generations := 100;
     population_size := 30; num_children := 1; mean := 0%Q; std := 1%Q;
     maximize := false; strategy := SINGLE_VARIANCE; reporter := true;
     target_fitness_value := None; target_tolerance := (1 # 100000)%Q;
     max_run_time := None; max_evaluations := None; bounds := None;
     max_age := 0; forces_config := PyNone; mutation_rate := 1%Q |}.

(** A strategy argument that is not a member of [Strategy]. *)
Definition with_strategy_name (length : Z) : EvoPy :=
  {| individual_length := length; warm_start := None; generations := 100;
     population_size := 30; num_children := 1; mean := 0%Q; std := 1%Q;
     maximize := false; strategy := NotAStrategy (PyStr "single");
     reporter := true;
     target_fitness_value := None; target_tolerance := (1 # 100000)%Q;
     max_run_time := None; max_evaluations := None; bounds := None;
     max_age := 0; forces_config := PyNone; mutation_rate := 1%Q |}.

(** A warm start outside the box [[0, 1]]. *)
Definition boxed_warm_start : EvoPy :=
  {| individual_length := 1; warm_start := Some [[5%Q]]; generations := 100;
     population_size := 30; num_children := 1; mean := 0%Q; std := 1%Q;
     maximize := false; strategy := SINGLE_VARIANCE; reporter := true;
     target_fitness_value := None; target_tolerance := (1 # 100000)%Q;
     max_run_time := None; max_evaluations := None;
     bounds := Some (0%Q, 1%Q);
     max_age := 0; forces_config := PyNone; mutation_rate := 1%Q |}.

(** Two genotypes of length two, to be sampled around the mean 5. *)
Definition mean_five : EvoPy :=
  {| individual_length := 2; warm_start := None; generations := 100;
     population_size := 2; num_children := 1; mean := 5%Q; std := 1%Q;
     maximize := false; strategy := SINGLE_VARIANCE; reporter := true;
     target_fitness_value := None; target_tolerance := (1 # 100000)%Q;
     max_run_time := None; max_evaluations := None; bounds := None;
     max_age := 0; forces_config := PyNone; mutation_rate := 1%Q |}.

(** A start at fitness [1e-6] with the target 0 and fifty generations to go;
    the candidate survives its first generation. *)
Definition near_target : EvoPy :=
  {| individual_length := 1; warm_start := Some [[(1 # 1000)%Q]];
     generations := 50;
     population_size := 1; num_children := 1; mean := 0%Q; std := 1%Q;
     maximize := false; strategy := SINGLE_VARIANCE; reporter := true;
     target_fitness_value := Some 0%Q; target_tolerance := (1 # 100000)%Q;
     max_run_time := None; max_evaluations := None; bounds := None;
     max_age := 1; forces_config := PyNone; mutation_rate := 1%Q |}.

(** A budget of five evaluations for a population of two. *)
Definition budgeted : EvoPy :=
  {| individual_length := 1; warm_start := None; generations := 100;
     population_size := 2; num_children := 1; mean := 0%Q; std := 1%Q;
     maximize := false; strategy := SINGLE_VARIANCE; reporter := true;
     target_fitness_value := None; target_tolerance := (1 # 100000)%Q;
     max_run_time := None; max_evaluations := Some 5; bounds := None;
     max_age := 1; forces_config := PyNone; mutation_rate := 1%Q |}.

(** The final state and the history of a run from the generator state 0. *)
Abbreviation final cfg := (snd (run env cfg (fresh env 0%nat))) (only parsing).

Abbreviation snapshot cfg g := (nth_error (history (final cfg)) g) (only parsing).

Definition young (limit : Z) (a : nat) : Individual :=
  mkIndividual [0%Q] SINGLE_VARIANCE [] None PyNone 1%Q a None.

(** A fitness function with a domain: the single component of the
    genotype where it is not negative, NaN below 0. *)
Definition domain_fitness (g : list Q) : Float :=
  match g with
  | [x] => if Qle_bool 0 x then Real x else NaN
  | _ => NaN
  end.

(** Children read off a script: the generator state [r] gives the child
    [[1]] for 1, [[3]] for 2 and [[-1]] for 3. *)
Definition scripted_child (p : Individual) (r : nat) : Individual * nat :=
  (mkIndividual [nth r [0%Q; 1%Q; 3%Q; (-1)%Q] 0%Q] (ind_strategy p)
     (strategy_parameters p) (ind_bounds p) (ind_forces_config p)
     (ind_mutation_rate p) 0 None,
   S r).

Definition scripted_env : Env :=
  {| Rng := nat;
     fitness_function := domain_fitness;
     reproduce := scripted_child;
     randn := fun n r => (repeat (inject_Z (Z.of_nat r)) n, S r);
     normal := fun loc scale n r =>
                 (repeat (loc + scale * inject_Z (Z.of_nat r))%Q n, S r);
     now := fun n => inject_Z (Z.of_nat n);
     np_mean := mean_of;
     np_std := fun _ => Real 0%Q;
     unordered_sort := ListSort.order |}.

(** One candidate [[3]], two generations, room for three candidates that
    may live for two generations. *)
Definition nan_child : EvoPy :=
  {| individual_length := 1; warm_start := Some [[3%Q]]; generations := 2;
     population_size := 3; num_children := 1; mean := 0%Q; std := 1%Q;
     maximize := false; strategy := SINGLE_VARIANCE; reporter := true;
     target_fitness_value := None; target_tolerance := (1 # 100000)%Q;
     max_run_time := None; max_evaluations := None; bounds := None;
     max_age := 2; forces_config := PyNone; mutation_rate := 1%Q |}.

Abbreviation scripted_final cfg :=
  (snd (run scripted_env cfg (fresh scripted_env 0%nat))) (only parsing).

End Demo.

(** ** Ranking relations *)

(** The order that [sorted] establishes on the keys. *)
Definition key_ord (reverse : bool) (a b : Q) : Prop :=
  if reverse then (b <= a)%Q else (a <= b)%Q.

(** [ranks_before reverse i j]: both candidates carry a real fitness, and the
    fitness of [i] may stand before the fitness of [j] in the configured
    direction (descending when [reverse], ascending otherwise). *)
Definition ranks_before (reverse : bool) (i j : Individual) : Prop :=
  exists a b,
    fitness i = Some (Real a) /\ fitness j = Some (Real b) /\ key_ord reverse a b.

Definition keyed_before {A : Type} (reverse : bool) (p q : Q * A) : Prop :=
  key_ord reverse (fst p) (fst q).

(** The ranked list that the engine obtains from a list of candidates. *)
Definition ranking (E : Env) (reverse : bool) (l : list Individual) : list Individual :=
  map snd (sorted_keyed (unordered_sort E) reverse (map (evaluate E) l)).

(** No candidate of the list has a NaN fitness: the fitness function gives
    a real number on every genotype of the list. *)
Definition all_real (E : Env) (l : list Individual) : Prop :=
  Forall (fun i => fitness_function E (genotype i) <> NaN) l.

(** A fitness function that never returns NaN. *)
Definition real_valued (E : Env) : Prop :=
  forall g, fitness_function E g <> NaN.

(** ** The record of a run

    What one completed pass of the loop body leaves in the history, written
    as a relation between the state the pass started from and its
    snapshot. *)

Section Trace.

Variable E : Env.
Variable self : EvoPy.

(** The three early-stop conditions of [_check_early_stop] and the final
    generation, read off a snapshot. *)
Definition time_budget_hit (s : Snapshot) : Prop :=
  exists limit elapsed,
    max_run_time self = Some limit /\ gen_elapsed s = Some elapsed /\
    (limit < elapsed)%Q.

Definition target_hit (s : Snapshot) : Prop :=
  exists target f,
    target_fitness_value self = Some target /\
    fitness (gen_best s) = Some (Real f) /\
    (Qabs (f - target) < target_tolerance self)%Q.

Definition evaluation_budget_hit (s : Snapshot) : Prop :=
  exists limit, max_evaluations self = Some limit /\ limit <= gen_evaluations s.

Definition final_generation (s : Snapshot) : Prop :=
  gen_index s = generations self - 1.

Definition stop_condition (s : Snapshot) : Prop :=
  time_budget_hit s \/ target_hit s \/ evaluation_budget_hit s \/ final_generation s.

(** The report handed to the reporter carries the values of the snapshot. *)
Definition report_of (s : Snapshot) (r : ProgressReport) : Prop :=
  rep_generation r = gen_index s /\
  rep_evaluations r = gen_evaluations s /\
  rep_best r = gen_best s /\
  rep_best_genotype r = genotype (gen_best s) /\
  rep_best_fitness r = fitness (gen_best s) /\
  rep_terminal r = gen_should_stop s.

Record pass (generation : Z) (population : list Individual) (count : Z)
    (calls : nat) (s : Snapshot) : Prop := mkPass {
  pass_index : gen_index s = generation;
  pass_parents : gen_parents s = population;
  pass_children :
    exists r, gen_children s =
              fst (reproduce_rounds E (Z.to_nat (num_children self)) population r);
  pass_survivors : gen_survivors s = _age_population self population;
  pass_ranked :
    gen_ranked s = ranking E (maximize self) (gen_children s ++ gen_survivors s);
  pass_population :
    gen_population s = slice_to (population_size self) (gen_ranked s);
  pass_best : hd_error (gen_population s) = Some (gen_best s);
  pass_evaluations :
    gen_evaluations s = count + Z.of_nat (length (gen_ranked s));
  pass_fitness_calls :
    gen_fitness_calls s = (calls + length (gen_ranked s))%nat;
  pass_stop : gen_should_stop s = true <-> stop_condition s;
  pass_report :
    if reporter self then exists r, gen_report s = Some r /\ report_of s r
    else gen_report s = None
}.

(** A history produced by the loop from [population]: every snapshot is a
    pass from the population the previous one selected, the counters carry
    over, and a snapshot that decided to stop is the last one. *)
Fixpoint linked (gens : list Z) (population : list Individual) (count : Z)
    (calls : nat) (hs : list Snapshot) {struct hs} : Prop :=
  match hs with
  | [] => True
  | s :: rest =>
      match gens with
      | [] => False
      | generation :: gens' =>
          pass generation population count calls s /\
          (gen_should_stop s = true -> rest = []) /\
          linked gens' (gen_population s) (gen_evaluations s)
            (gen_fitness_calls s) rest
      end
  end.

(** The reports that the reporter received for a history. *)
Definition delivered (hs : list Snapshot) : list ProgressReport :=
  flat_map (fun s => match gen_report s with Some r => [r] | None => [] end) hs.

(** Two states that differ at most in the generator and the clock. *)
Definition same_records (w w' : World E) : Prop :=
  history w' = history w /\ reported w' = reported w /\
  evaluations w' = evaluations w /\ fitness_calls w' = fitness_calls w.

(** The size of the evaluated union, per generation of a history. *)
Definition union_sizes (hs : list Snapshot) : list Z :=
  map (fun s => Z.of_nat (length (gen_children s) + length (gen_survivors s))) hs.

Definition total (l : list Z) : Z := fold_right Z.add 0 l.

(** The three tests of [_check_early_stop] as booleans of the state in
    which it is called. *)
Definition timed_out (start : Q) (w : World E) : bool :=
  match max_run_time self with
  | Some limit => Qltb limit (now E (clock_calls w) - start)
  | None => false
  end.

Definition on_target (best : Individual) : bool :=
  match target_fitness_value self, fitness best with
  | Some target, Some f => within_tolerance f target (target_tolerance self)
  | _, _ => false
  end.

Definition over_budget (w : World E) : bool :=
  match max_evaluations self with
  | Some limit => limit <=? evaluations w
  | None => false
  end.

(** The state in which [run] calls [_init_population]: the start time has
    been read. *)
Definition started (r : Rng E) : World E := snd (time_time E (fresh E r)).

End Trace.

Arguments same_records {E} w w'.
Arguments pass_index {E self generation population count calls s} _.
Arguments pass_parents {E self generation population count calls s} _.
Arguments pass_children {E self generation population count calls s} _.
Arguments pass_survivors {E self generation population count calls s} _.
Arguments pass_ranked {E self generation population count calls s} _.
Arguments pass_population {E self generation population count calls s} _.
Arguments pass_best {E self generation population count calls s} _.
Arguments pass_evaluations {E self generation population count calls s} _.
Arguments pass_fitness_calls {E self generation population count calls s} _.
Arguments pass_stop {E self generation population count calls s} _.
Arguments pass_report {E self generation population count calls s} _.

(** ** Definitions that follow the specification's words *)

(** The aging step as the specification words it: candidates of the prior
    generation with an age strictly below the limit are kept with their age
    incremented by one; the others are dropped. *)
Fixpoint aged_survivors (limit : Z) (prior : list Individual) : list Individual :=
  match prior with
  | [] => []
  | candidate :: rest =>
      if Z.of_nat (age candidate) <? limit
      then set_age candidate (age candidate + 1) :: aged_survivors limit rest
      else aged_survivors limit rest
  end.

(** The same configuration with another [mean] argument. *)
Definition with_mean (cfg : EvoPy) (m : Q) : EvoPy :=
  {| individual_length := individual_length cfg; warm_start := warm_start cfg;
     generations := generations cfg; population_size := population_size cfg;
     num_children := num_children cfg; mean := m; std := std cfg;
     maximize := maximize cfg; strategy := strategy cfg;
     reporter := reporter cfg;
     target_fitness_value := target_fitness_value cfg;
     target_tolerance := target_tolerance cfg;
     max_run_time := max_run_time cfg; max_evaluations := max_evaluations cfg;
     bounds := bounds cfg; max_age := max_age cfg;
     forces_config := forces_config cfg; mutation_rate := mutation_rate cfg |}.

(** The initial sampling as the specification words it: [n] genotypes of
    length [individual_length], every component drawn from the normal
    distribution with the configured mean and standard deviation. *)
Fixpoint sample_rows_around_mean (E : Env) (cfg : EvoPy) (n : nat)
  : M E (list (list Q)) :=
  match n with
  | O => ret []
  | S n' =>
      (row <- draw_normal E (mean cfg) (std cfg) (individual_length cfg) ;;
       rows <- sample_rows_around_mean E cfg n' ;;
       ret (row :: rows))%evo
  end.

(** A matrix whose components all lie within [[lo, hi]]. *)
Definition within (lo hi : Q) (rows : list (list Q)) : Prop :=
  Forall (Forall (fun x => (lo <= x)%Q /\ (x <= hi)%Q)) rows.

(** ** Preconditions and sizes read off the code *)

(** The number of candidates that [_init_population] builds: one per row
    of the warm start, or [population_size] sampled ones. *)
Definition initial_size (cfg : EvoPy) : nat :=
  match warm_start cfg with
  | Some rows => length rows
  | None => Z.to_nat (population_size cfg)
  end.

(** What [_init_population] needs in order to return: a recognised
    strategy, a dimension that [randn] accepts and, when at least one
    genotype is sampled, a scale and a size that [normal] accepts. *)
Definition can_initialize (cfg : EvoPy) : Prop :=
  recognized (strategy cfg) = true /\
  (strategy cfg = MULTIPLE_VARIANCE -> 0 <= individual_length cfg) /\
  (warm_start cfg = None -> 1 <= population_size cfg ->
   (0 <= std cfg)%Q /\ 0 <= individual_length cfg).

(** The size that [_init_population] asks [randn] for. *)
Definition strategy_size (cfg : EvoPy) : nat :=
  match strategy cfg with
  | SINGLE_VARIANCE => 1
  | MULTIPLE_VARIANCE => Z.to_nat (individual_length cfg)
  | FULL_VARIANCE =>
      Z.to_nat (Z.quot ((individual_length cfg + 1) * individual_length cfg) 2)
  | NotAStrategy _ => 0
  end.

(** A generator that returns vectors of the requested size, as numpy's
    does. *)
Definition well_sized (E : Env) : Prop :=
  (forall n r, length (fst (randn E n r)) = n) /\
  (forall loc scale n r, length (fst (normal E loc scale n r)) = n).

(** A [reproduce] that returns candidates of age 0. *)
Definition newborn_children (E : Env) : Prop :=
  forall p r, age (fst (reproduce E p r)) = 0%nat.

(** No early-stop condition is configured. *)
Definition no_early_stop (cfg : EvoPy) : Prop :=
  max_run_time cfg = None /\ target_fitness_value cfg = None /\
  max_evaluations cfg = None.

(** A genotype whose components all lie within [[lo, hi]]. *)
Definition inside (lo hi : Q) (g : list Q) : Prop :=
  Forall (fun x => (lo <= x)%Q /\ (x <= hi)%Q) g.

(** ** Further configurations for [Demo.env] *)
Module Edge.

(** The defaults with a population size of 0. *)
Definition empty_population : EvoPy :=
  Demo.configure Demo.defaults None 100 0 0.

(** Three warm-start candidates and no generation to run. *)
Definition no_generations : EvoPy :=
  Demo.configure Demo.defaults (Some [[3%Q]; [1%Q]; [2%Q]]) 0 30 0.

(** No children and no survivors: [num_children = 0] with the default
    maximum age. *)
Definition childless : EvoPy :=
  {| individual_length := 1; warm_start := Some [[1%Q]]; generations := 3;
     population_size := 30; num_children := 0; mean := 0%Q; std := 1%Q;
     maximize := false; strategy := SINGLE_VARIANCE; reporter := true;
     target_fitness_value := None; target_tolerance := (1 # 100000)%Q;
     max_run_time := None; max_evaluations := None; bounds := None;
     max_age := 0; forces_config := PyNone; mutation_rate := 1%Q |}.

(** Three sampled genotypes of length two, kept in the box [[0, 2]], with
    one strategy parameter per dimension. *)
Definition boxed_sampling : EvoPy :=
  {| individual_length := 2; warm_start := None; generations := 3;
     population_size := 3; num_children := 1; mean := 0%Q; std := 1%Q;
     maximize := false; strategy := MULTIPLE_VARIANCE; reporter := true;
     target_fitness_value := None; target_tolerance := (1 # 100000)%Q;
     max_run_time := None; max_evaluations := None;
     bounds := Some (0%Q, 2%Q);
     max_age := 0; forces_config := PyNone; mutation_rate := 1%Q |}.

(** Three generations of two candidates that may live for one generation,
    two children per parent. *)
Definition three_generations : EvoPy :=
  {| individual_length := 1; warm_start := None; generations := 3;
     population_size := 2; num_children := 2; mean := 0%Q; std := 1%Q;
     maximize := false; strategy := SINGLE_VARIANCE; reporter := true;
     target_fitness_value := None; target_tolerance := (1 # 100000)%Q;
     max_run_time := None; max_evaluations := None; bounds := None;
     max_age := 1; forces_config := PyNone; mutation_rate := 1%Q |}.

End Edge.

(** * Properties *)

(** ** Arithmetic on the keys *)

Lemma Qltb_lt (a b : Q) : Qltb a b = true <-> (a < b)%Q.
Proof.
  unfold Qltb. rewrite negb_true_iff. split; intro H.
  - apply Qnot_le_lt. intro Hle. apply Qle_bool_iff in Hle. congruence.
  - destruct (Qle_bool b a) eqn:Hb; [|reflexivity].
    apply Qle_bool_iff in Hb. exfalso. exact (Qlt_not_le _ _ H Hb).
Qed.

Lemma key_le_ord (reverse : bool) (a b : Q) :
  key_le reverse a b = true <-> key_ord reverse a b.
Proof. destruct reverse; cbn; apply Qle_bool_iff. Qed.

Lemma key_le_total (reverse : bool) (a b : Q) :
  key_le reverse a b = false -> key_ord reverse b a.
Proof.
  intro H. destruct reverse; cbn in *.
  - destruct (Qlt_le_dec a b) as [Hlt|Hle].
    + apply Qlt_le_weak; exact Hlt.
    + apply Qle_bool_iff in Hle. congruence.
  - destruct (Qlt_le_dec b a) as [Hlt|Hle].
    + apply Qlt_le_weak; exact Hlt.
    + apply Qle_bool_iff in Hle. congruence.
Qed.

Lemma key_ord_trans (reverse : bool) (a b c : Q) :
  key_ord reverse a b -> key_ord reverse b c -> key_ord reverse a c.
Proof. destruct reverse; cbn; intros; eapply Qle_trans; eauto. Qed.

Lemma np_clip_inside (lo hi x : Q) :
  (lo <= x)%Q -> (x <= hi)%Q -> np_clip lo hi x = x.
Proof.
  intros Hlo Hhi. unfold np_clip.
  apply Qle_bool_iff in Hlo. rewrite Hlo. cbn.
  apply Qle_bool_iff in Hhi. rewrite Hhi. reflexivity.
Qed.

(** ** The stable sort *)

Section Sorting.

Variable A : Type.
Variable reverse : bool.

Lemma insert_keyed_perm (x : Q * A) (l : list (Q * A)) :
  Permutation (insert_keyed reverse x l) (x :: l).
Proof.
  induction l as [|y l IH]; cbn.
  - apply Permutation_refl.
  - destruct (key_le reverse (fst x) (fst y)).
    + apply Permutation_refl.
    + eapply perm_trans; [apply perm_skip; exact IH | apply perm_swap].
Qed.

Lemma sort_keyed_perm (l : list (Q * A)) : Permutation (sort_keyed reverse l) l.
Proof.
  induction l as [|x l IH]; cbn.
  - apply perm_nil.
  - eapply perm_trans; [apply insert_keyed_perm | apply perm_skip; exact IH].
Qed.

Lemma insert_keyed_sorted (x : Q * A) (l : list (Q * A)) :
  StronglySorted (keyed_before reverse) l ->
  StronglySorted (keyed_before reverse) (insert_keyed reverse x l).
Proof.
  induction 1 as [|y l Hs IH Hall]; cbn.
  - constructor; constructor.
  - destruct (key_le reverse (fst x) (fst y)) eqn:Hk.
    + apply key_le_ord in Hk.
      constructor; [constructor; assumption|].
      constructor; [exact Hk|].
      rewrite Forall_forall in *. intros z Hz.
      eapply key_ord_trans; [exact Hk | apply Hall; exact Hz].
    + apply key_le_total in Hk.
      constructor; [exact IH|].
      rewrite Forall_forall in *. intros z Hz.
      apply (Permutation_in _ (insert_keyed_perm x l)) in Hz.
      destruct Hz as [<-|Hz]; [exact Hk | apply Hall; exact Hz].
Qed.

Lemma sort_keyed_sorted (l : list (Q * A)) :
  StronglySorted (keyed_before reverse) (sort_keyed reverse l).
Proof.
  induction l as [|x l IH]; cbn.
  - constructor.
  - apply insert_keyed_sorted; exact IH.
Qed.

End Sorting.

Lemma StronglySorted_firstn {A : Type} (R : A -> A -> Prop) (n : nat) (l : list A) :
  StronglySorted R l -> StronglySorted R (firstn n l).
Proof.
  intro H. revert n. induction H as [|x l Hs IH Hall]; intro n.
  - rewrite firstn_nil. constructor.
  - destruct n as [|n]; cbn; [constructor|].
    constructor; [apply IH|].
    rewrite Forall_forall in *. intros y Hy. apply Hall.
    rewrite <- (firstn_skipn n l). apply in_or_app. left; exact Hy.
Qed.

Lemma slice_to_firstn {A : Type} (k : Z) (l : list A) :
  exists n, slice_to k l = firstn n l.
Proof. unfold slice_to. destruct (k <? 0); eauto. Qed.

Lemma slice_to_incl {A : Type} (k : Z) (l : list A) (x : A) :
  In x (slice_to k l) -> In x l.
Proof.
  destruct (slice_to_firstn k l) as [n ->]. intro H.
  rewrite <- (firstn_skipn n l). apply in_or_app. left; exact H.
Qed.

Lemma slice_to_head {A : Type} (k : Z) (l : list A) (x : A) :
  hd_error (slice_to k l) = Some x -> hd_error l = Some x.
Proof.
  destruct (slice_to_firstn k l) as [n ->].
  destruct n, l; cbn; congruence.
Qed.

Lemma slice_to_length {A : Type} (k : Z) (l : list A) :
  1 <= k -> Z.of_nat (length (slice_to k l)) <= k.
Proof.
  intro Hk. unfold slice_to.
  destruct (k <? 0) eqn:Hneg; [apply Z.ltb_lt in Hneg; lia|].
  pose proof (firstn_le_length (Z.to_nat k) l).
  rewrite length_firstn. lia.
Qed.

(** ** [sorted] on float keys *)

Lemma flat_map_positions {A : Type} (l : list A) :
  flat_map (fun i => match nth_error l i with
                     | Some x => [x]
                     | None => []
                     end) (seq 0 (length l)) = l.
Proof.
  induction l as [|x l IH]; [reflexivity|].
  cbn [length seq flat_map nth_error app]. f_equal.
  rewrite <- seq_shift, flat_map_concat_map, map_map, <- flat_map_concat_map.
  exact IH.
Qed.

Lemma is_rearrangement_perm (n : nat) (order : list nat) :
  is_rearrangement n order = true -> Permutation (seq 0 n) order.
Proof.
  unfold is_rearrangement. rewrite andb_true_iff, Nat.eqb_eq, forallb_forall.
  intros [Hlen Hall]. apply NoDup_Permutation_bis.
  - apply seq_NoDup.
  - rewrite length_seq, Hlen. apply Nat.le_refl.
  - intros i Hi. specialize (Hall i Hi). apply existsb_exists in Hall.
    destruct Hall as (k & Hk & Heq). apply Nat.eqb_eq in Heq. subst. exact Hk.
Qed.

(** Whatever order the environment proposes, [rearrange] returns its
    input rearranged. *)
Lemma rearrange_perm {A : Type} (order : list nat) (l : list A) :
  Permutation (rearrange order l) l.
Proof.
  unfold rearrange.
  destruct (is_rearrangement (length l) order) eqn:Hok; [|apply Permutation_refl].
  apply is_rearrangement_perm in Hok.
  eapply perm_trans.
  - apply Permutation_flat_map. apply Permutation_sym. exact Hok.
  - rewrite flat_map_positions. apply Permutation_refl.
Qed.

(** The order that stands for the built-in in the concrete environments:
    [sorted([3, nan, 1, 3])] is its input, and [sorted([3, 1, nan, 2])] is
    [[1, 2, 3, nan]]. *)
Lemma list_sort_order_examples :
  ListSort.order false [Real 3; NaN; Real 1; Real 3] = [0; 1; 2; 3]%nat /\
  ListSort.order false [Real 3; Real 1; NaN; Real 2] = [1; 3; 0; 2]%nat.
Proof. split; vm_compute; reflexivity. Qed.

Section Sorted.

Variable A : Type.

Lemma real_keys_some (l : list (Float * A)) (keyed : list (Q * A)) :
  real_keys l = Some keyed ->
  l = map (fun p => (Real (fst p), snd p)) keyed.
Proof.
  revert keyed. induction l as [|[[q|] x] l IH]; intros keyed; cbn [real_keys].
  - intros [= <-]. reflexivity.
  - destruct (real_keys l) as [k|]; [|discriminate].
    intros [= <-]. cbn [map fst snd]. rewrite <- (IH k eq_refl). reflexivity.
  - discriminate.
Qed.

Lemma real_keys_all (l : list (Float * A)) :
  Forall (fun p => fst p <> NaN) l -> exists keyed, real_keys l = Some keyed.
Proof.
  induction 1 as [|[[q|] x] l Hx _ IH]; cbn [real_keys].
  - eauto.
  - destruct IH as [k ->]. eauto.
  - exfalso. apply Hx. reflexivity.
Qed.

Lemma sorted_keyed_perm (unordered : bool -> list Float -> list nat)
    (reverse : bool) (l : list (Float * A)) :
  Permutation (sorted_keyed unordered reverse l) l.
Proof.
  unfold sorted_keyed. destruct (real_keys l) as [keyed|] eqn:Hk.
  - pose proof (real_keys_some l _ Hk) as Hl.
    eapply perm_trans; [apply Permutation_map; apply sort_keyed_perm|].
    rewrite <- Hl. apply Permutation_refl.
  - apply rearrange_perm.
Qed.

End Sorted.

(** ** Facts about a ranking *)

Section Ranking.

Variable E : Env.
Variable reverse : bool.

Lemma ranking_perm (l : list Individual) :
  Permutation (ranking E reverse l) (map (fun i => snd (evaluate E i)) l).
Proof.
  unfold ranking. rewrite <- (map_map (evaluate E) snd).
  apply Permutation_map. apply sorted_keyed_perm.
Qed.

Lemma ranking_length (l : list Individual) : length (ranking E reverse l) = length l.
Proof.
  rewrite (Permutation_length (ranking_perm l)). apply length_map.
Qed.

Lemma ranking_evaluated (l : list Individual) (i : Individual) :
  In i (ranking E reverse l) ->
  exists j, In j l /\ i = set_fitness j (fitness_function E (genotype j)).
Proof.
  intro H. apply (Permutation_in _ (ranking_perm l)) in H.
  apply in_map_iff in H. destruct H as [j [<- Hj]]. exists j. split; [exact Hj|reflexivity].
Qed.

Lemma ranking_complete (l : list Individual) (j : Individual) :
  In j l -> In (set_fitness j (fitness_function E (genotype j))) (ranking E reverse l).
Proof.
  intro H. apply (Permutation_in _ (Permutation_sym (ranking_perm l))).
  apply in_map_iff. exists j. split; [reflexivity|exact H].
Qed.

Lemma keyed_sorted_ranked (kl : list (Q * Individual)) :
  Forall (fun p => fitness (snd p) = Some (Real (fst p))) kl ->
  StronglySorted (keyed_before reverse) kl ->
  StronglySorted (ranks_before reverse) (map snd kl).
Proof.
  intros Hfit Hs. induction Hs as [|p kl Hs IH Hall]; cbn.
  - constructor.
  - inversion Hfit as [|? ? Hp Hrest]; subst.
    constructor; [apply IH; exact Hrest|].
    rewrite Forall_forall in *. intros j Hj.
    apply in_map_iff in Hj. destruct Hj as [q [<- Hq]].
    exists (fst p), (fst q). repeat split; [exact Hp | apply Hrest; exact Hq | apply Hall; exact Hq].
Qed.

(** When no fitness is NaN, the ranking is the stable sort of the keys. *)
Lemma ranking_real (l : list Individual) :
  all_real E l ->
  exists keyed,
    real_keys (map (evaluate E) l) = Some keyed /\
    ranking E reverse l = map snd (sort_keyed reverse keyed).
Proof.
  intro Hreal.
  destruct (real_keys_all _ (map (evaluate E) l)) as [keyed Hk].
  { rewrite Forall_forall. intros p Hp. apply in_map_iff in Hp.
    destruct Hp as (i & <- & Hi). cbn [evaluate fst].
    unfold all_real in Hreal. rewrite Forall_forall in Hreal. apply Hreal; exact Hi. }
  exists keyed. split; [exact Hk|].
  unfold ranking, sorted_keyed. rewrite Hk. rewrite map_map. cbn [snd].
  reflexivity.
Qed.

Lemma ranking_sorted (l : list Individual) :
  all_real E l ->
  StronglySorted (ranks_before reverse) (ranking E reverse l).
Proof.
  intro Hreal. destruct (ranking_real l Hreal) as (keyed & Hk & ->).
  apply keyed_sorted_ranked; [|apply sort_keyed_sorted].
  rewrite Forall_forall. intros p Hp.
  apply (Permutation_in _ (@sort_keyed_perm _ reverse keyed)) in Hp.
  assert (Hin : In (Real (fst p), snd p) (map (evaluate E) l)).
  { rewrite (real_keys_some _ _ _ Hk). apply in_map_iff. exists p. split; [reflexivity|exact Hp]. }
  apply in_map_iff in Hin. destruct Hin as (i & Heq & _).
  unfold evaluate in Heq. injection Heq as Hv Hi. rewrite <- Hi, Hv. reflexivity.
Qed.

(** A fitness function that never returns NaN gives every list real keys. *)
Lemma real_valued_all_real (l : list Individual) : real_valued E -> all_real E l.
Proof.
  intro H. unfold all_real. rewrite Forall_forall. intros i _. apply H.
Qed.

End Ranking.

(** ** The effects of the building blocks *)

Section Effects.

Variable E : Env.
Variable self : EvoPy.

Lemma same_records_refl (w : World E) : same_records w w.
Proof. repeat split. Qed.

Lemma same_records_trans (w1 w2 w3 : World E) :
  same_records w1 w2 -> same_records w2 w3 -> same_records w1 w3.
Proof.
  unfold same_records. intros (a & b & c & d) (a' & b' & c' & d').
  repeat split; congruence.
Qed.

Lemma time_time_records (w : World E) : same_records w (snd (time_time E w)).
Proof. repeat split. Qed.

Lemma check_early_stop_records (start : Q) (best : Individual) (w : World E) :
  same_records w (snd (_check_early_stop E self start best w)).
Proof.
  unfold _check_early_stop, bind, ret, raise, read_evaluations, time_time.
  destruct (max_run_time self) as [limit|].
  - destruct (Qltb limit _); [repeat split|].
    destruct (target_fitness_value self) as [target|].
    + destruct (fitness best) as [f|]; [|repeat split].
      destruct (within_tolerance _ _ _); [repeat split|].
      destruct (max_evaluations self); repeat split.
    + destruct (max_evaluations self); repeat split.
  - destruct (target_fitness_value self) as [target|].
    + destruct (fitness best) as [f|]; [|repeat split].
      destruct (within_tolerance _ _ _); [repeat split|].
      destruct (max_evaluations self); repeat split.
    + destruct (max_evaluations self); repeat split.
Qed.

Lemma check_early_stop_bool (start : Q) (best : Individual) (w w' : World E) (b : bool) :
  _check_early_stop E self start best w = (Ok b, w') ->
  b = timed_out E self start w || on_target self best || over_budget E self w.
Proof.
  unfold _check_early_stop, timed_out, on_target, over_budget.
  unfold bind, ret, raise, read_evaluations, time_time.
  destruct (max_run_time self) as [limit|].
  - destruct (Qltb limit _); [intro H; inversion H; reflexivity|].
    destruct (target_fitness_value self) as [target|].
    + destruct (fitness best) as [f|]; [|discriminate].
      destruct (within_tolerance _ _ _); [intro H; inversion H; reflexivity|].
      destruct (max_evaluations self); intro H; inversion H; reflexivity.
    + destruct (max_evaluations self); intro H; inversion H; reflexivity.
  - destruct (target_fitness_value self) as [target|].
    + destruct (fitness best) as [f|]; [|discriminate].
      destruct (within_tolerance _ _ _); [intro H; inversion H; reflexivity|].
      destruct (max_evaluations self); intro H; inversion H; reflexivity.
    + destruct (max_evaluations self); intro H; inversion H; reflexivity.
Qed.

Lemma timed_out_iff (start : Q) (w : World E) :
  timed_out E self start w = true <->
  exists limit, max_run_time self = Some limit /\
                (limit < now E (clock_calls w) - start)%Q.
Proof.
  unfold timed_out. destruct (max_run_time self) as [limit|].
  - rewrite Qltb_lt. split.
    + intro H. exists limit. split; [reflexivity|exact H].
    + intros (l & Hl & H). inversion Hl; subst. exact H.
  - split; [discriminate|]. intros (l & Hl & _). discriminate.
Qed.

Lemma on_target_iff (best : Individual) :
  on_target self best = true <->
  exists target f, target_fitness_value self = Some target /\
                   fitness best = Some (Real f) /\
                   (Qabs (f - target) < target_tolerance self)%Q.
Proof.
  unfold on_target. destruct (target_fitness_value self) as [target|].
  - destruct (fitness best) as [[f|]|]; cbn [within_tolerance].
    + rewrite Qltb_lt. split.
      * intro H. exists target, f. repeat split. exact H.
      * intros (t & f' & Ht & Hf & H). inversion Ht; inversion Hf; subst. exact H.
    + split; [discriminate|]. intros (t & f' & _ & Hf & _). discriminate.
    + split; [discriminate|]. intros (t & f' & _ & Hf & _). discriminate.
  - split; [discriminate|]. intros (t & f' & Ht & _). discriminate.
Qed.

Lemma over_budget_iff (w : World E) :
  over_budget E self w = true <->
  exists limit, max_evaluations self = Some limit /\ limit <= evaluations w.
Proof.
  unfold over_budget. destruct (max_evaluations self) as [limit|].
  - rewrite Z.leb_le. split.
    + intro H. exists limit. split; [reflexivity|exact H].
    + intros (l & Hl & H). inversion Hl; subst. exact H.
  - split; [discriminate|]. intros (l & Hl & _). discriminate.
Qed.

End Effects.

(** ** One pass of the loop body *)

Section Body.

Variable E : Env.
Variable self : EvoPy.

Ltac reduce_state :=
  cbv beta iota zeta;
  cbn [random evaluations clock_calls fitness_calls reported history fst snd].

Lemma fitness_values_world (l : list Individual) (w : World E) :
  snd (fitness_values E l w) = w.
Proof.
  revert w. induction l as [|i l IH]; intro w; cbn [fitness_values].
  - reflexivity.
  - destruct (fitness i); [|reflexivity].
    unfold bind, ret. specialize (IH w).
    destruct (fitness_values E l w) as [[vs|e] w1]; cbn in IH; subst; reflexivity.
Qed.

Lemma generation_body_ok (start : Q) (g : Z) (pop pop' : list Individual)
    (best : Individual) (stop : bool) (w w' : World E) :
  generation_body E self start g pop w = (Ok (pop', best, stop), w') ->
  exists s,
    pass E self g pop (evaluations w) (fitness_calls w) s /\
    pop' = gen_population s /\ best = gen_best s /\ stop = gen_should_stop s /\
    history w' = history w ++ [s] /\
    reported w' = reported w ++ delivered [s] /\
    evaluations w' = gen_evaluations s /\
    fitness_calls w' = gen_fitness_calls s.
Proof.
  unfold generation_body, sorted_by_fitness, evaluate_all.
  unfold bind, with_random, add_fitness_calls, add_evaluations, read_clock_calls,
    read_evaluations, read_fitness_calls, record_generation, call_reporter,
    item0, ret, raise.
  destruct (reproduce_rounds E (Z.to_nat (num_children self)) pop (random w))
    as [children r1] eqn:Hch.
  reduce_state.
  fold (ranking E (maximize self) (children ++ _age_population self pop)).
  set (ranked := ranking E (maximize self) (children ++ _age_population self pop)).
  destruct (slice_to (population_size self) ranked) as [|b rest] eqn:Hslice;
    reduce_state; [discriminate|].
  match goal with
  | |- context [_check_early_stop E self start b ?w2] =>
      set (w2' := w2);
      pose proof (check_early_stop_records E self start b w2') as Hrec;
      pose proof (@check_early_stop_bool E self start b w2') as Hbool;
      destruct (_check_early_stop E self start b w2') as [[early|e] w3] eqn:Hc
  end; [|discriminate].
  specialize (Hbool w3 early eq_refl).
  destruct Hrec as (Hh & Hr & He & Hf). cbn [snd] in Hh, Hr, He, Hf.
  subst w2'. cbn [history reported evaluations fitness_calls clock_calls] in *.
  reduce_state.
  set (stopv := early || (g =? generations self - 1)).
  assert (Hstop : forall s, gen_index s = g -> gen_best s = b ->
            gen_evaluations s = evaluations w + Z.of_nat (length ranked) ->
            gen_elapsed s = match max_run_time self with
                            | None => None
                            | Some _ => Some (now E (clock_calls w) - start)%Q
                            end ->
            gen_should_stop s = stopv ->
            gen_should_stop s = true <-> stop_condition self s).
  { intros s Hi Hb Hev Hel Hs. rewrite Hs. unfold stopv. rewrite Hbool.
    rewrite !orb_true_iff, timed_out_iff, on_target_iff, over_budget_iff, Z.eqb_eq.
    cbn [clock_calls evaluations].
    unfold stop_condition, time_budget_hit, target_hit, evaluation_budget_hit,
      final_generation.
    rewrite Hi, Hb, Hev, Hel. split.
    - intros [[[(l & Hl & H)|H]|H]|H]; [left|right; left|right; right; left|right; right; right]; try assumption.
      exists l. eexists. rewrite Hl. repeat split. exact H.
    - intros [(l & e' & Hl & He' & H)|[H|[H|H]]].
      + left; left; left. exists l. split; [exact Hl|].
        rewrite Hl in He'. inversion He'; subst. exact H.
      + left; left; right; exact H.
      + left; right; exact H.
      + right; exact H. }
  destruct (reporter self) eqn:Hrep.
  - pose proof (fitness_values_world (b :: rest) w3) as Hfv.
    destruct (fitness_values E (b :: rest) w3) as [[values|e] w4] eqn:Hv;
      [|discriminate].
    cbn [snd] in Hfv. subst w4.
    unfold time_time. reduce_state.
    rewrite ?Hh, ?Hr, ?He, ?Hf.
    match goal with
    | |- (_, @mkWorld _ _ _ _ _ _ (_ ++ [?s])) = _ -> _ => intro H; exists s
    end.
    inversion H; subst; clear H.
    split; [|unfold delivered;
                      cbn [gen_population gen_best gen_should_stop history
                           reported evaluations fitness_calls gen_evaluations
                           gen_fitness_calls flat_map gen_report app];
                      rewrite ?app_nil_r; repeat split; reflexivity].
    constructor; cbn [gen_index gen_parents gen_children gen_survivors gen_ranked
                      gen_population gen_best gen_evaluations gen_fitness_calls
                      gen_elapsed gen_should_stop gen_report hd_error].
    all: try reflexivity.
    + exists (random w). rewrite Hch. reflexivity.
    + symmetry; exact Hslice.
    + unfold ranked. rewrite ranking_length. reflexivity.
    + match goal with
      | |- _ <-> stop_condition _ ?s =>
          exact (Hstop s eq_refl eq_refl eq_refl eq_refl eq_refl)
      end.
    + rewrite Hrep. eexists. split; [reflexivity|].
      unfold report_of. cbn. repeat split; reflexivity.
  - reduce_state.
    rewrite ?Hh, ?Hr, ?He, ?Hf.
    match goal with
    | |- (_, @mkWorld _ _ _ _ _ _ (_ ++ [?s])) = _ -> _ => intro H; exists s
    end.
    inversion H; subst; clear H.
    split; [|unfold delivered;
                      cbn [gen_population gen_best gen_should_stop history
                           reported evaluations fitness_calls gen_evaluations
                           gen_fitness_calls flat_map gen_report app];
                      rewrite ?app_nil_r; repeat split; reflexivity].
    constructor; cbn [gen_index gen_parents gen_children gen_survivors gen_ranked
                      gen_population gen_best gen_evaluations gen_fitness_calls
                      gen_elapsed gen_should_stop gen_report hd_error].
    all: try reflexivity.
    + exists (random w). rewrite Hch. reflexivity.
    + symmetry; exact Hslice.
    + unfold ranked. rewrite ranking_length. reflexivity.
    + match goal with
      | |- _ <-> stop_condition _ ?s =>
          exact (Hstop s eq_refl eq_refl eq_refl eq_refl eq_refl)
      end.
    + rewrite Hrep. reflexivity.
Qed.

(** A pass that raises leaves the history and the reports as they were. *)
Lemma generation_body_raise (start : Q) (g : Z) (pop : list Individual)
    (e : Exn) (w w' : World E) :
  generation_body E self start g pop w = (Raise e, w') ->
  history w' = history w /\ reported w' = reported w.
Proof.
  unfold generation_body, sorted_by_fitness, evaluate_all.
  unfold bind, with_random, add_fitness_calls, add_evaluations, read_clock_calls,
    read_evaluations, read_fitness_calls, record_generation, call_reporter,
    item0, ret, raise.
  destruct (reproduce_rounds E (Z.to_nat (num_children self)) pop (random w))
    as [children r1].
  reduce_state.
  destruct (slice_to (population_size self) _) as [|b rest];
    reduce_state; [intro H; inversion H; split; reflexivity|].
  match goal with
  | |- context [_check_early_stop E self start b ?w2] =>
      pose proof (check_early_stop_records E self start b w2) as Hrec;
      destruct (_check_early_stop E self start b w2) as [[early|e'] w3]
  end.
  - destruct Hrec as (Hh & Hr & _). cbn [snd history reported] in Hh, Hr.
    reduce_state.
    destruct (reporter self).
    + pose proof (fitness_values_world (b :: rest) w3) as Hfv.
      destruct (fitness_values E (b :: rest) w3) as [[values|e'] w4].
      * unfold time_time. reduce_state. discriminate.
      * cbn [snd] in Hfv. subst w4. intro H; inversion H; subst.
        split; assumption.
    + reduce_state. discriminate.
  - destruct Hrec as (Hh & Hr & _). cbn [snd history reported] in Hh, Hr.
    intro H; inversion H; subst. split; assumption.
Qed.

End Body.

(** ** The loop and the run *)

Section Loop.

Variable E : Env.
Variable self : EvoPy.

Lemma last_cons (A : Type) (a d : A) (l : list A) : last (a :: l) d = last l a.
Proof.
  revert a d. induction l as [|b l IH]; intros a d; [reflexivity|].
  change (last (a :: b :: l) d) with (last (b :: l) d).
  rewrite (IH b d), (IH b a). reflexivity.
Qed.

Lemma delivered_cons (s : Snapshot) (hs : list Snapshot) :
  delivered (s :: hs) = delivered [s] ++ delivered hs.
Proof. unfold delivered. cbn [flat_map]. rewrite app_nil_r. reflexivity. Qed.

(** The history that the loop appends is linked, the reports are those of
    its snapshots, the result is the best of the last snapshot, and a
    snapshot that decided to stop ends the loop with its best candidate. *)
Lemma loop_linked (start : Q) (gens : list Z) :
  forall (pop : list Individual) (best : Individual) (w w' : World E)
         (r : Result Individual),
  loop E self start gens pop best w = (r, w') ->
  exists hs,
    history w' = history w ++ hs /\
    reported w' = reported w ++ delivered hs /\
    linked E self gens pop (evaluations w) (fitness_calls w) hs /\
    (forall b, r = Ok b -> b = last (map gen_best hs) best) /\
    (forall s, In s hs -> gen_should_stop s = true -> r = Ok (gen_best s)).
Proof.
  induction gens as [|g rest IH]; intros pop best w w' r; cbn [loop].
  - unfold ret. intro H; inversion H; subst. exists [].
    rewrite !app_nil_r.
    split; [reflexivity|]. split; [reflexivity|]. split; [exact I|]. split.
    + intros b Hb; inversion Hb; reflexivity.
    + intros s [].
  - unfold bind.
    destruct (generation_body E self start g pop w) as [[[[pop1 best1] stop]|e] w1]
      eqn:Hbody.
    + apply generation_body_ok in Hbody.
      destruct Hbody as (s & Hpass & -> & -> & -> & Hh & Hr & He & Hf).
      destruct (gen_should_stop s) eqn:Hstop; cbv beta iota.
      * unfold ret. intro H; inversion H; subst. exists [s].
        split; [exact Hh|]. split; [exact Hr|].
        split; [cbn [linked]; split; [exact Hpass|split; [reflexivity|exact I]]|].
        split.
        -- intros b Hb; inversion Hb; reflexivity.
        -- intros s' [<-|[]] _. reflexivity.
      * intro Hloop. apply IH in Hloop.
        destruct Hloop as (hs & Hh' & Hr' & Hl & Hres & Hlast).
        exists (s :: hs). rewrite Hh, <- app_assoc in Hh'.
        rewrite Hr, <- app_assoc in Hr'. rewrite He, Hf in Hl.
        split; [exact Hh'|]. split; [rewrite delivered_cons; exact Hr'|].
        split; [cbn [linked]; split; [exact Hpass|split; [congruence|exact Hl]]|].
        split.
        -- intros b Hb. cbn [map]. rewrite last_cons. apply Hres; exact Hb.
        -- intros s' [<-|Hin] Hs'; [congruence|]. apply Hlast; assumption.
    + apply generation_body_raise in Hbody. destruct Hbody as [Hh Hr].
      intro H; inversion H; subst. exists [].
      rewrite !app_nil_r.
      split; [exact Hh|]. split; [exact Hr|]. split; [exact I|]. split.
      * intros b Hb; discriminate.
      * intros s [].
Qed.

Lemma with_random_records (A : Type) (f : Rng E -> A * Rng E) (w : World E) :
  same_records w (snd (with_random E f w)).
Proof. unfold with_random. destruct (f (random w)). repeat split. Qed.

Lemma draw_randn_records (n : Z) (w : World E) :
  same_records w (snd (draw_randn E n w)).
Proof.
  unfold draw_randn. destruct (n <? 0); [repeat split|apply with_random_records].
Qed.

Lemma draw_normal_records (loc scale : Q) (n : Z) (w : World E) :
  same_records w (snd (draw_normal E loc scale n w)).
Proof.
  unfold draw_normal. destruct (Qltb scale 0); [repeat split|].
  destruct (n <? 0); [repeat split|apply with_random_records].
Qed.

Lemma sample_rows_records (n : nat) (w : World E) :
  same_records w (snd (sample_rows E self n w)).
Proof.
  revert w. induction n as [|n IH]; intro w; cbn [sample_rows].
  - repeat split.
  - unfold bind.
    pose proof (draw_normal_records 0 (std self) (individual_length self) w) as H1.
    destruct (draw_normal E 0 (std self) (individual_length self) w) as [[row|e] w1];
      cbn [snd] in H1; [|exact H1].
    pose proof (IH w1) as H2.
    destruct (sample_rows E self n w1) as [[rows|e] w2]; cbn [snd] in H2 |- *;
      eapply same_records_trans; eassumption.
Qed.

Lemma init_population_rest_records (sp : list Q) (w : World E) :
  same_records w
    (snd ((population_parameters <-
            match warm_start self with
            | None => sample_rows E self (Z.to_nat (population_size self))
            | Some rows => ret rows
            end ;;
          ret (map (fun parameters =>
                      mkIndividual parameters (strategy self) sp (bounds self)
                        (forces_config self) (mutation_rate self) 0 None)
                   (clip_rows (bounds self) population_parameters)))%evo w)).
Proof.
  unfold bind. destruct (warm_start self) as [rows|].
  - repeat split.
  - pose proof (sample_rows_records (Z.to_nat (population_size self)) w) as H.
    destruct (sample_rows E self (Z.to_nat (population_size self)) w)
      as [[rows|e] w1]; exact H.
Qed.

Lemma init_population_records (w : World E) :
  same_records w (snd (_init_population E self w)).
Proof.
  unfold _init_population. unfold bind at 1.
  destruct (strategy self) eqn:Hs.
  1-3: match goal with
       | |- context [draw_randn E ?n ?w0] =>
           pose proof (draw_randn_records n w0) as H1;
           destruct (draw_randn E n w0) as [[sp|e] w1]; cbn [snd] in H1;
           [|exact H1];
           eapply same_records_trans; [exact H1|];
           rewrite <- Hs; apply init_population_rest_records
       end.
  repeat split.
Qed.

(** The candidates of generation 0 as the loop receives them: the initial
    population, each member carrying its fitness. *)
Lemma run_linked (r : Rng E) (res : Result (option (list Q))) (w' : World E) :
  individual_length self <> 0 ->
  run E self (fresh E r) = (res, w') ->
  exists pop0,
    linked E self (range (generations self)) pop0 0 (length pop0) (history w') /\
    reported w' = delivered (history w') /\
    (forall pop w0, _init_population E self (started E r) = (Ok pop, w0) ->
                    length pop0 = length pop /\
                    pop0 = map (fun i => snd (evaluate E i)) pop) /\
    (forall s, In s (history w') -> gen_should_stop s = true ->
               res = Ok (Some (genotype (gen_best s)))).
Proof.
  intros HL. unfold run. apply Z.eqb_neq in HL. rewrite HL.
  unfold bind at 1. unfold time_time at 1. cbn [fresh clock_calls random
    evaluations fitness_calls reported history].
  change {| random := r; evaluations := 0; clock_calls := 1; fitness_calls := 0;
            reported := []; history := [] |} with (started E r).
  unfold bind at 1.
  pose proof (init_population_records (started E r)) as Hrec.
  destruct (_init_population E self (started E r)) as [[pop|e] w1] eqn:Hinit;
    cbn [snd] in Hrec; destruct Hrec as (Hh & Hr & He & Hf);
    cbn [started time_time fresh snd history reported evaluations fitness_calls]
      in Hh, Hr, He, Hf.
  - assert (Hpop : forall pop1 (w0 : World E),
              (Ok pop, w1) = (Ok pop1, w0) ->
              length (map snd (map (evaluate E) pop)) = length pop1 /\
              map snd (map (evaluate E) pop) =
              map (fun i => snd (evaluate E i)) pop1).
    { intros pop1 w0 Heq. inversion Heq; subst.
      rewrite !length_map, map_map. split; reflexivity. }
    unfold evaluate_all, bind at 1. unfold bind at 1.
    unfold add_fitness_calls, ret at 1. cbv beta iota zeta.
    unfold bind at 1. unfold item0.
    destruct (map snd (sorted_keyed (unordered_sort E) (maximize self)
                        (map (evaluate E) pop)))
      as [|best ranked]; cbv beta iota zeta.
    + unfold raise; cbv beta iota zeta. intro H; inversion H; subst.
      exists (map snd (map (evaluate E) pop)).
      cbn [history reported]. rewrite Hh, Hr.
      split; [exact I|]. split; [reflexivity|]. split; [exact Hpop|].
      intros s [].
    + unfold ret at 1; cbv beta iota zeta. unfold bind at 1.
      match goal with
      | |- context [loop E self ?st ?gs ?p ?b ?w2] =>
          destruct (loop E self st gs p b w2) as [[b'|e] w3] eqn:Hloop
      end; apply loop_linked in Hloop;
        destruct Hloop as (hs & Hh' & Hr' & Hl & Hres & Hlast);
        cbn [history reported evaluations fitness_calls] in Hh', Hr', Hl;
        rewrite Hh in Hh'; rewrite Hr in Hr'; rewrite He, Hf in Hl;
        cbn [app] in Hh', Hr'; cbn [Nat.add] in Hl;
        unfold ret; intros [= <- <-];
        exists (map snd (map (evaluate E) pop));
        rewrite Hh', Hr'; rewrite !length_map in *;
        (split; [exact Hl|]); (split; [reflexivity|]); (split; [exact Hpop|]);
        intros s Hin Hs; specialize (Hlast s Hin Hs).
      * inversion Hlast; subst. reflexivity.
      * discriminate.
  - intro H; inversion H; subst. exists [].
    rewrite Hh, Hr.
    split; [exact I|]. split; [reflexivity|]. split; [intros ? ? Heq; discriminate|].
    intros s [].
Qed.

End Loop.

(** ** Reading a linked history *)

Section History.

Variable E : Env.
Variable self : EvoPy.

Lemma linked_pass (hs : list Snapshot) :
  forall gens pop count calls s,
  linked E self gens pop count calls hs -> In s hs ->
  exists g p c f, pass E self g p c f s.
Proof.
  induction hs as [|s0 hs IH]; intros gens pop count calls s Hl Hin; [destruct Hin|].
  destruct gens as [|g gens]; [destruct Hl|].
  destruct Hl as (Hp & _ & Hrest). destruct Hin as [<-|Hin].
  - eauto.
  - eapply IH; eassumption.
Qed.

(** A snapshot that follows another one started from the population that
    the earlier one selected, and the earlier one had not decided to stop. *)
Lemma linked_adjacent (hs : list Snapshot) :
  forall gens pop count calls n s1 s2,
  linked E self gens pop count calls hs ->
  nth_error hs n = Some s1 -> nth_error hs (S n) = Some s2 ->
  gen_should_stop s1 = false /\
  exists g, pass E self g (gen_population s1) (gen_evaluations s1)
              (gen_fitness_calls s1) s2.
Proof.
  induction hs as [|s0 hs IH]; intros gens pop count calls n s1 s2 Hl H1 H2;
    [destruct n; discriminate|].
  destruct gens as [|g gens]; [destruct Hl|].
  destruct Hl as (Hp & Hstop & Hrest). destruct n as [|n].
  - cbn in H1. inversion H1; subst. cbn in H2.
    destruct hs as [|s3 hs]; [discriminate|]. cbn in H2. inversion H2; subst.
    split.
    + destruct (gen_should_stop s1); [|reflexivity].
      specialize (Hstop eq_refl). discriminate.
    + destruct gens as [|g' gens]; [destruct Hrest|].
      destruct Hrest as (Hp2 & _). exists g'. exact Hp2.
  - cbn in H1, H2. eapply IH; eassumption.
Qed.

(** A snapshot that decided to stop is the last one. *)
Lemma linked_stop_last (hs : list Snapshot) :
  forall gens pop count calls s,
  linked E self gens pop count calls hs -> In s hs ->
  gen_should_stop s = true -> exists pre, hs = pre ++ [s].
Proof.
  induction hs as [|s0 hs IH]; intros gens pop count calls s Hl Hin Hs;
    [destruct Hin|].
  destruct gens as [|g gens]; [destruct Hl|].
  destruct Hl as (Hp & Hstop & Hrest). destruct Hin as [<-|Hin].
  - rewrite (Hstop Hs). exists []. reflexivity.
  - destruct (IH _ _ _ _ _ Hrest Hin Hs) as [pre Hpre].
    exists (s0 :: pre). rewrite Hpre. reflexivity.
Qed.

(** The [n]-th snapshot belongs to the [n]-th generation of the range. *)
Lemma linked_index (hs : list Snapshot) :
  forall gens pop count calls n s,
  linked E self gens pop count calls hs ->
  nth_error hs n = Some s -> nth_error gens n = Some (gen_index s).
Proof.
  induction hs as [|s0 hs IH]; intros gens pop count calls n s Hl Hn;
    [destruct n; discriminate|].
  destruct gens as [|g gens]; [destruct Hl|].
  destruct Hl as (Hp & _ & Hrest). destruct n as [|n].
  - cbn in Hn |- *. inversion Hn; subst. rewrite (pass_index Hp). reflexivity.
  - cbn in Hn |- *. eapply IH; eassumption.
Qed.

Lemma pass_union_size {g : Z} {pop : list Individual} {count : Z} {calls : nat}
    {s : Snapshot} :
  pass E self g pop count calls s ->
  length (gen_ranked s) = (length (gen_children s) + length (gen_survivors s))%nat.
Proof.
  intro Hp. rewrite (pass_ranked Hp), ranking_length. apply length_app.
Qed.

(** The counter after the [n]-th snapshot is the counter at the start plus
    the sizes of the unions evaluated so far. *)
Lemma linked_evaluations (hs : list Snapshot) :
  forall gens pop count calls n s,
  linked E self gens pop count calls hs ->
  nth_error hs n = Some s ->
  gen_evaluations s = count + total (firstn (S n) (union_sizes hs)).
Proof.
  induction hs as [|s0 hs IH]; intros gens pop count calls n s Hl Hn;
    [destruct n; discriminate|].
  destruct gens as [|g gens]; [destruct Hl|].
  destruct Hl as (Hp & _ & Hrest).
  pose proof (pass_union_size Hp) as Hsize.
  pose proof (pass_evaluations Hp) as Hev.
  destruct n as [|n].
  - cbn in Hn. inversion Hn; subst.
    cbn [union_sizes map firstn total fold_right]. rewrite Hev, Hsize. lia.
  - cbn in Hn. specialize (IH _ _ _ _ _ _ Hrest Hn).
    change (firstn (S (S n)) (union_sizes (s0 :: hs)))
      with (Z.of_nat (length (gen_children s0) + length (gen_survivors s0))
            :: firstn (S n) (union_sizes hs)).
    cbn [total fold_right]. fold (total (firstn (S n) (union_sizes hs))).
    rewrite IH, Hev, Hsize. lia.
Qed.

(** The calls of the fitness function and the counter advance together. *)
Lemma linked_counts (hs : list Snapshot) :
  forall gens pop count calls s,
  linked E self gens pop count calls hs -> In s hs ->
  Z.of_nat (gen_fitness_calls s) - Z.of_nat calls = gen_evaluations s - count.
Proof.
  induction hs as [|s0 hs IH]; intros gens pop count calls s Hl Hin; [destruct Hin|].
  destruct gens as [|g gens]; [destruct Hl|].
  destruct Hl as (Hp & _ & Hrest).
  pose proof (pass_evaluations Hp) as Hev.
  pose proof (pass_fitness_calls Hp) as Hfc.
  destruct Hin as [<-|Hin].
  - rewrite Hev, Hfc. lia.
  - specialize (IH _ _ _ _ _ Hrest Hin). rewrite Hev, Hfc in IH. lia.
Qed.

Lemma delivered_app (hs1 hs2 : list Snapshot) :
  delivered (hs1 ++ hs2) = delivered hs1 ++ delivered hs2.
Proof. unfold delivered. apply flat_map_app. Qed.

(** With a reporter, the reports are in step with the snapshots. *)
Lemma delivered_nth (hs : list Snapshot) :
  reporter self = true ->
  forall gens pop count calls n rp,
  linked E self gens pop count calls hs ->
  nth_error (delivered hs) n = Some rp ->
  exists s, nth_error hs n = Some s /\ gen_report s = Some rp /\ report_of s rp.
Proof.
  intro Hrep.
  induction hs as [|s0 hs IH]; intros gens pop count calls n rp Hl Hn;
    [destruct n; discriminate|].
  destruct gens as [|g gens]; [destruct Hl|].
  destruct Hl as (Hp & _ & Hrest).
  pose proof (pass_report Hp) as Hr. rewrite Hrep in Hr.
  destruct Hr as (r0 & Hr0 & Hof).
  rewrite delivered_cons in Hn. unfold delivered at 1 in Hn.
  cbn [flat_map] in Hn. rewrite Hr0 in Hn. cbn [app] in Hn.
  destruct n as [|n].
  - cbn in Hn. inversion Hn; subst. exists s0.
    split; [reflexivity|]. split; [exact Hr0|exact Hof].
  - cbn [nth_error] in Hn |- *. eapply IH; eassumption.
Qed.

(** The run of a zero-length genotype leaves no history. *)
Lemma run_zero_length (w : World E) :
  individual_length self = 0 -> run E self w = (Ok None, w).
Proof. intro H. unfold run. rewrite H. reflexivity. Qed.

End History.

(** * Properties of the specification *)

(** ** Aging *)

Lemma age_population_as_specified (self : EvoPy) (population : list Individual) :
  _age_population self population = aged_survivors (max_age self) population.
Proof.
  unfold _age_population.
  induction population as [|c rest IH]; [reflexivity|].
  cbn [filter aged_survivors].
  destruct (Z.of_nat (age c) <? max_age self).
  - cbn [map]. rewrite IH. rewrite Nat.add_1_r. reflexivity.
  - exact IH.
Qed.

(** C6: the aging step keeps exactly the candidates of the prior
    generation whose age is strictly below the configured maximum age, each
    with its age incremented by exactly one and otherwise unchanged, and
    drops every other candidate; it is a total function, and when the
    maximum age is 0 it drops every candidate. *)
Theorem age_population_keeps_the_young (self : EvoPy) (population : list Individual) :
  _age_population self population = aged_survivors (max_age self) population /\
  (forall j, In j (_age_population self population) <->
             exists i, In i population /\ Z.of_nat (age i) < max_age self /\
                       j = set_age i (age i + 1)) /\
  length (_age_population self population) =
    length (filter (fun i => Z.of_nat (age i) <? max_age self) population) /\
  (max_age self = 0 -> _age_population self population = []).
Proof.
  split; [apply age_population_as_specified|]. split; [|split].
  - intro j. unfold _age_population. rewrite in_map_iff. split.
    + intros (i & <- & Hi). apply filter_In in Hi. destruct Hi as [Hin Hage].
      apply Z.ltb_lt in Hage. exists i. rewrite Nat.add_1_r. auto.
    + intros (i & Hin & Hage & ->). exists i. rewrite Nat.add_1_r.
      split; [reflexivity|]. apply filter_In. split; [exact Hin|].
      apply Z.ltb_lt; exact Hage.
  - unfold _age_population. apply length_map.
  - intro H0. unfold _age_population. rewrite H0.
    induction population as [|c rest IH]; [reflexivity|].
    cbn [filter]. destruct (Z.of_nat (age c) <? 0) eqn:Hc; [|exact IH].
    apply Z.ltb_lt in Hc. lia.
Qed.

(** With the default maximum age 0 a population of three is dropped whole;
    with the maximum age 2 the candidates of age 0 and 1 stay, one year
    older, and the candidate of age 2 goes. *)
Lemma age_population_keeps_the_young_example :
  _age_population Demo.defaults [Demo.young 0 0; Demo.young 0 1; Demo.young 0 2] = [] /\
  map age
    (_age_population (Demo.configure Demo.defaults None 1 3 2)
       [Demo.young 2 0; Demo.young 2 1; Demo.young 2 2]) = [1%nat; 2%nat].
Proof.
  split.
  - apply (age_population_keeps_the_young Demo.defaults). reflexivity.
  - reflexivity.
Defined.

(** ** Zero-length genotypes and unrecognised strategies *)

(** C7: when [individual_length] is 0, [run] returns the "no result" value
    at once and leaves the whole state as it was: the fitness function has
    not been called, no population has been initialised, no generation has
    been recorded, and neither the generator nor the clock has been used. *)
Theorem zero_length_returns_no_result (E : Env) (self : EvoPy) (w : World E) :
  individual_length self = 0 -> run E self w = (Ok None, w).
Proof. apply run_zero_length. Qed.

Lemma zero_length_returns_no_result_example :
  individual_length Demo.zero_length = 0 /\
  run Demo.env Demo.zero_length (fresh Demo.env 0%nat) =
    (Ok None, fresh Demo.env 0%nat).
Proof.
  split; [reflexivity|].
  apply (zero_length_returns_no_result Demo.env Demo.zero_length). reflexivity.
Defined.

(** C8, as stated, fails: with a zero-length genotype the run returns the
    "no result" value although the strategy is not a recognised one. *)
Lemma unrecognized_strategy_zero_length_no_error :
  recognized (strategy (Demo.with_strategy_name 0)) = false /\
  run Demo.env (Demo.with_strategy_name 0) (fresh Demo.env 0%nat) =
    (Ok None, fresh Demo.env 0%nat).
Proof. split; reflexivity. Qed.

(** C8, amended: for every strategy value that is not one of the three
    recognised granularities and every non-zero [individual_length], the
    run fails with the configuration error; the error is raised by
    [_init_population], whatever the state, and when it is raised the run
    has only read the clock: the fitness function has not been called. *)
Theorem unrecognized_strategy_fails (E : Env) (self : EvoPy) (w : World E) :
  recognized (strategy self) = false ->
  individual_length self <> 0 ->
  run E self w = (Raise (ValueError not_a_strategy), snd (time_time E w)) /\
  _init_population E self w = (Raise (ValueError not_a_strategy), w) /\
  fitness_calls (snd (run E self w)) = fitness_calls w.
Proof.
  intros Hs HL.
  assert (Hinit : forall w0, _init_population E self w0 =
                             (Raise (ValueError not_a_strategy), w0)).
  { intro w0. unfold _init_population, bind.
    destruct (strategy self); try discriminate. reflexivity. }
  assert (Hrun : run E self w =
                 (Raise (ValueError not_a_strategy), snd (time_time E w))).
  { unfold run. apply Z.eqb_neq in HL. rewrite HL.
    unfold bind at 1. unfold time_time at 1. cbv beta iota zeta.
    unfold bind at 1. rewrite Hinit. reflexivity. }
  split; [exact Hrun|]. split; [apply Hinit|].
  rewrite Hrun. reflexivity.
Qed.

Lemma unrecognized_strategy_fails_example :
  recognized (strategy (Demo.with_strategy_name 1)) = false /\
  individual_length (Demo.with_strategy_name 1) <> 0 /\
  fst (run Demo.env (Demo.with_strategy_name 1) (fresh Demo.env 0%nat)) =
    Raise (ValueError not_a_strategy) /\
  fitness_calls (Demo.final (Demo.with_strategy_name 1)) = 0%nat.
Proof.
  assert (H1 : recognized (strategy (Demo.with_strategy_name 1)) = false)
    by reflexivity.
  assert (H2 : individual_length (Demo.with_strategy_name 1) <> 0)
    by (cbn; lia).
  destruct (unrecognized_strategy_fails Demo.env (Demo.with_strategy_name 1)
              (fresh Demo.env 0%nat) H1 H2) as (Hrun & _ & Hcalls).
  split; [exact H1|]. split; [exact H2|]. split.
  - rewrite Hrun. reflexivity.
  - exact Hcalls.
Defined.

(** ** Population initialisation *)

Lemma clip_rows_within (lo hi : Q) (rows : list (list Q)) :
  within lo hi rows -> map (map (np_clip lo hi)) rows = rows.
Proof.
  induction 1 as [|row rows Hrow _ IH]; [reflexivity|].
  cbn [map]. rewrite IH. f_equal.
  induction Hrow as [|x row [Hlo Hhi] _ IHrow]; [reflexivity|].
  cbn [map]. rewrite IHrow, np_clip_inside by assumption. reflexivity.
Qed.

Lemma draw_randn_ok (E : Env) (n : Z) (w : World E) :
  0 <= n -> exists v w', draw_randn E n w = (Ok v, w').
Proof.
  intro Hn. unfold draw_randn, with_random.
  destruct (n <? 0) eqn:Hneg; [apply Z.ltb_lt in Hneg; lia|].
  destruct (randn E (Z.to_nat n) (random w)) as [v r]. eauto.
Qed.

Lemma genotype_of_members (s : Strategy) (sp : list Q) (b : option (Q * Q))
    (fc : PyValue) (mr : Q) (rows : list (list Q)) :
  map genotype
    (map (fun parameters => mkIndividual parameters s sp b fc mr 0 None) rows) = rows.
Proof. rewrite map_map. cbn [genotype]. apply map_id. Qed.

(** C3, as stated, fails: a warm start of [[5]] under the bounds [[0, 1]]
    gives a generation-0 genotype of [[1]]. *)
Lemma warm_start_is_clipped :
  warm_start Demo.boxed_warm_start = Some [[5%Q]] /\
  bounds Demo.boxed_warm_start = Some (0%Q, 1%Q) /\
  match fst (_init_population Demo.env Demo.boxed_warm_start
               (started Demo.env 0%nat)) with
  | Ok population =>
      map genotype population = [[1%Q]] /\
      Some (map genotype population) <> warm_start Demo.boxed_warm_start
  | Raise _ => False
  end.
Proof.
  split; [reflexivity|]. split; [reflexivity|].
  cbn. split; [reflexivity|discriminate].
Qed.

(** C3, amended: when a warm start is supplied (and the strategy is a
    recognised one whose parameters can be drawn), the genotypes of the
    generation-0 population are the warm-start matrix clipped component by
    component into the box bounds; they equal the warm-start matrix
    verbatim when no bounds are set, and when every component already lies
    within the bounds. *)
Theorem warm_start_within_bounds_verbatim (E : Env) (self : EvoPy) (w : World E)
    (rows : list (list Q)) :
  warm_start self = Some rows ->
  recognized (strategy self) = true ->
  (strategy self = MULTIPLE_VARIANCE -> 0 <= individual_length self) ->
  exists population w',
    _init_population E self w = (Ok population, w') /\
    map genotype population = clip_rows (bounds self) rows /\
    (bounds self = None -> map genotype population = rows) /\
    (forall lo hi, bounds self = Some (lo, hi) -> within lo hi rows ->
                   map genotype population = rows).
Proof.
  intros Hws Hrec Hlen.
  assert (Hdraw : exists sp w',
            match strategy self with
            | SINGLE_VARIANCE => draw_randn E 1
            | MULTIPLE_VARIANCE => draw_randn E (individual_length self)
            | FULL_VARIANCE =>
                draw_randn E
                  (Z.quot ((individual_length self + 1) * individual_length self) 2)
            | NotAStrategy _ => raise (ValueError not_a_strategy)
            end w = (Ok sp, w')).
  { destruct (strategy self); try discriminate.
    - apply draw_randn_ok. lia.
    - apply draw_randn_ok. apply Hlen. reflexivity.
    - apply draw_randn_ok. apply Z.quot_pos; [nia|lia]. }
  destruct Hdraw as (sp & w' & Hdraw).
  exists (map (fun parameters =>
                 mkIndividual parameters (strategy self) sp (bounds self)
                   (forces_config self) (mutation_rate self) 0 None)
              (clip_rows (bounds self) rows)), w'.
  split; [|split; [|split]].
  - unfold _init_population. unfold bind at 1. rewrite Hdraw.
    unfold bind. rewrite Hws. reflexivity.
  - apply genotype_of_members.
  - intro Hb. rewrite genotype_of_members, Hb. reflexivity.
  - intros lo hi Hb Hin. rewrite genotype_of_members, Hb. cbn [clip_rows].
    apply clip_rows_within. exact Hin.
Qed.

(** A warm start of [[1/2]] within the bounds [[0, 1]] is kept as it is. *)
Lemma warm_start_within_bounds_verbatim_example :
  exists population w',
    _init_population Demo.env
      (Demo.configure Demo.boxed_warm_start (Some [[(1 # 2)%Q]]) 1 1 0)
      (started Demo.env 0%nat) = (Ok population, w') /\
    map genotype population = [[(1 # 2)%Q]].
Proof.
  assert (Hlen : strategy (Demo.configure Demo.boxed_warm_start
                             (Some [[(1 # 2)%Q]]) 1 1 0) = MULTIPLE_VARIANCE ->
                 0 <= individual_length (Demo.configure Demo.boxed_warm_start
                                           (Some [[(1 # 2)%Q]]) 1 1 0))
    by discriminate.
  destruct (warm_start_within_bounds_verbatim Demo.env
              (Demo.configure Demo.boxed_warm_start (Some [[(1 # 2)%Q]]) 1 1 0)
              (started Demo.env 0%nat) [[(1 # 2)%Q]] eq_refl eq_refl Hlen)
    as (population & w' & Hinit & _ & _ & Hin).
  exists population, w'. split; [exact Hinit|].
  apply (Hin 0%Q 1%Q); [reflexivity|].
  repeat constructor; cbn; discriminate.
Defined.

Lemma sample_rows_mean (E : Env) (self : EvoPy) (m : Q) (n : nat) (w : World E) :
  sample_rows E (with_mean self m) n w = sample_rows E self n w.
Proof.
  revert w. induction n as [|n IH]; intro w; [reflexivity|].
  cbn [sample_rows]. unfold bind. cbn [with_mean std individual_length].
  destruct (draw_normal E 0 (std self) (individual_length self) w) as [[row|e] w1];
    [|reflexivity].
  rewrite IH. reflexivity.
Qed.

Lemma sample_rows_around_zero (E : Env) (self : EvoPy) (n : nat) (w : World E) :
  sample_rows E self n w = sample_rows_around_mean E (with_mean self 0%Q) n w.
Proof.
  revert w. induction n as [|n IH]; intro w; [reflexivity|].
  cbn [sample_rows sample_rows_around_mean]. unfold bind.
  cbn [with_mean std individual_length mean].
  destruct (draw_normal E 0 (std self) (individual_length self) w) as [[row|e] w1];
    [|reflexivity].
  rewrite IH. reflexivity.
Qed.

(** C2 does not hold of the code: the [mean] argument has no effect on the
    initial population.  For every configuration the population is the one
    obtained with the mean 0, every genotype being drawn with [loc=0]; for
    the mean 5, the standard deviation 1 and the generator of [Demo.env],
    the two genotypes are [[1; 1]] and [[2; 2]], where sampling around the
    configured mean gives [[6; 6]] and [[7; 7]]. *)
Theorem initial_sampling_ignores_mean :
  (forall (E : Env) (self : EvoPy) (m : Q) (w : World E),
     _init_population E (with_mean self m) w = _init_population E self w) /\
  (forall (E : Env) (self : EvoPy) (n : nat) (w : World E),
     sample_rows E self n w = sample_rows_around_mean E (with_mean self 0%Q) n w) /\
  mean Demo.mean_five = 5%Q /\
  match fst (_init_population Demo.env Demo.mean_five (started Demo.env 0%nat)) with
  | Ok population => map genotype population = [[1%Q; 1%Q]; [2%Q; 2%Q]]
  | Raise _ => False
  end /\
  fst (sample_rows_around_mean Demo.env Demo.mean_five 2
         (snd (draw_randn Demo.env 1 (started Demo.env 0%nat)))) =
    Ok [[6%Q; 6%Q]; [7%Q; 7%Q]].
Proof.
  split; [|split; [|split; [|split]]].
  - intros E self m w. unfold _init_population.
    cbn [with_mean strategy individual_length warm_start population_size bounds
         forces_config mutation_rate].
    unfold bind.
    destruct (match strategy self with
              | SINGLE_VARIANCE => draw_randn E 1
              | MULTIPLE_VARIANCE => draw_randn E (individual_length self)
              | FULL_VARIANCE =>
                  draw_randn E
                    (Z.quot ((individual_length self + 1) * individual_length self) 2)
              | NotAStrategy _ => raise (ValueError not_a_strategy)
              end w) as [[sp|e] w1]; [|reflexivity].
    destruct (warm_start self) as [rows|]; [reflexivity|].
    rewrite sample_rows_mean. reflexivity.
  - intros E self n w. apply sample_rows_around_zero.
  - reflexivity.
  - vm_compute. reflexivity.
  - vm_compute. reflexivity.
Qed.

(** ** The history of a run *)

Section Run.

Variable E : Env.
Variable self : EvoPy.

(** Every run from a fresh engine leaves a linked history that starts from
    the evaluated initial population, with the counter at 0. *)
Lemma run_history (r : Rng E) :
  exists pop0,
    linked E self (range (generations self)) pop0 0 (length pop0)
      (history (snd (run E self (fresh E r)))) /\
    reported (snd (run E self (fresh E r))) =
      delivered (history (snd (run E self (fresh E r)))) /\
    (forall pop w0, _init_population E self (started E r) = (Ok pop, w0) ->
                    individual_length self <> 0 -> length pop0 = length pop) /\
    (forall s, In s (history (snd (run E self (fresh E r)))) ->
               gen_should_stop s = true ->
               fst (run E self (fresh E r)) = Ok (Some (genotype (gen_best s)))).
Proof.
  destruct (Z.eq_dec (individual_length self) 0) as [H0|H0].
  - rewrite (run_zero_length E self (fresh E r) H0). exists [].
    cbn [snd fst fresh history reported].
    split; [exact I|]. split; [reflexivity|]. split; [intros; contradiction|].
    intros s [].
  - destruct (run E self (fresh E r)) as [res w'] eqn:Hrun.
    destruct (run_linked E self r res w' H0 Hrun) as (pop0 & Hl & Hr & Hpop & Hstop).
    exists pop0. cbn [snd fst].
    split; [exact Hl|]. split; [exact Hr|]. split; [|exact Hstop].
    intros pop w0 Hinit _. apply (Hpop pop w0 Hinit).
Qed.

Lemma range_nth (n : Z) (g : nat) (z : Z) :
  nth_error (range n) g = Some z -> z = Z.of_nat g.
Proof.
  unfold range. intro H. rewrite nth_error_map in H.
  destruct (nth_error (seq 0 (Z.to_nat n)) g) as [k|] eqn:Hk; [|discriminate].
  cbn in H. inversion H; subst.
  pose proof (nth_error_nth _ _ 0%nat Hk) as Hnth.
  assert (Hlt : (g < length (seq 0 (Z.to_nat n)))%nat)
    by (apply nth_error_Some; congruence).
  rewrite length_seq in Hlt. rewrite seq_nth in Hnth by exact Hlt.
  cbn in Hnth. subst. reflexivity.
Qed.

(** The best candidate of a pass carries the fitness of its genotype. *)
Lemma pass_best_evaluated {g : Z} {pop : list Individual} {count : Z} {calls : nat}
    {s : Snapshot} :
  pass E self g pop count calls s ->
  In (gen_best s) (gen_ranked s) /\
  hd_error (gen_ranked s) = Some (gen_best s) /\
  fitness (gen_best s) = Some (fitness_function E (genotype (gen_best s))).
Proof.
  intro Hp. pose proof (pass_best Hp) as Hb. rewrite (pass_population Hp) in Hb.
  apply slice_to_head in Hb.
  assert (Hin : In (gen_best s) (gen_ranked s)).
  { destruct (gen_ranked s) as [|x l]; [discriminate|].
    cbn in Hb. inversion Hb; subst. left; reflexivity. }
  split; [exact Hin|]. split; [exact Hb|].
  rewrite (pass_ranked Hp) in Hin. apply ranking_evaluated in Hin.
  destruct Hin as (j & _ & ->). reflexivity.
Qed.

(** The selected population of a pass is sorted when none of its candidates
    has the fitness NaN and, for a positive population size, no longer than
    that size. *)
Lemma pass_population_sorted {g : Z} {pop : list Individual} {count : Z}
    {calls : nat} {s : Snapshot} :
  pass E self g pop count calls s ->
  (all_real E (gen_children s ++ gen_survivors s) ->
   StronglySorted (ranks_before (maximize self)) (gen_population s)) /\
  (1 <= population_size self ->
   Z.of_nat (length (gen_population s)) <= population_size self).
Proof.
  intro Hp. rewrite (pass_population Hp). split.
  - intro Hreal.
    destruct (slice_to_firstn (population_size self) (gen_ranked s)) as [n ->].
    apply StronglySorted_firstn. rewrite (pass_ranked Hp).
    apply ranking_sorted. exact Hreal.
  - apply slice_to_length.
Qed.

(** If the best candidate of one pass is young enough to survive the aging
    of the next pass, and no candidate of the next pass has the fitness NaN,
    the best fitness of the next pass is at least as good. *)
Lemma surviving_best_bounds_next (hs : list Snapshot) (gens : list Z)
    (pop : list Individual) (count : Z) (calls n : nat) (s1 s2 : Snapshot) :
  linked E self gens pop count calls hs ->
  nth_error hs n = Some s1 -> nth_error hs (S n) = Some s2 ->
  Z.of_nat (age (gen_best s1)) < max_age self ->
  all_real E (gen_children s2 ++ gen_survivors s2) ->
  exists f1 f2,
    fitness (gen_best s1) = Some (Real f1) /\
    fitness (gen_best s2) = Some (Real f2) /\
    key_ord (maximize self) f2 f1.
Proof.
  intros Hl H1 H2 Hage Hreal.
  destruct (linked_pass E self _ _ _ _ _ _ Hl (nth_error_In _ _ H1))
    as (g1 & p1 & c1 & k1 & Hp1).
  destruct (linked_adjacent E self _ _ _ _ _ _ _ _ Hl H1 H2) as (_ & g2 & Hp2).
  destruct (pass_best_evaluated Hp1) as (_ & _ & Hf1).
  destruct (pass_best_evaluated Hp2) as (_ & Hhd2 & Hf2).
  set (b1 := gen_best s1) in *. set (b2 := gen_best s2) in *.
  assert (Haged : In (set_age b1 (S (age b1))) (gen_survivors s2)).
  { rewrite (pass_survivors Hp2). unfold _age_population.
    apply in_map_iff. exists b1. split; [reflexivity|].
    apply filter_In. split.
    - pose proof (pass_best Hp1) as Hb. fold b1 in Hb.
      destruct (gen_population s1) as [|x l]; [discriminate|].
      cbn in Hb. inversion Hb; subst. left; reflexivity.
    - apply Z.ltb_lt. exact Hage. }
  assert (Hv1 : exists f1, fitness_function E (genotype b1) = Real f1).
  { unfold all_real in Hreal. rewrite Forall_forall in Hreal.
    specialize (Hreal _ (in_or_app _ _ _ (or_intror Haged))).
    cbn [genotype set_age] in Hreal.
    destruct (fitness_function E (genotype b1)) as [f1|]; [eauto|contradiction]. }
  destruct Hv1 as [f1 Hv1]. rewrite Hv1 in Hf1.
  assert (Hsurv : In (set_fitness (set_age b1 (S (age b1))) (Real f1)) (gen_ranked s2)).
  { rewrite (pass_ranked Hp2). rewrite <- Hv1.
    change (fitness_function E (genotype b1))
      with (fitness_function E (genotype (set_age b1 (S (age b1))))).
    apply ranking_complete. apply in_or_app. right. exact Haged. }
  pose proof (ranking_sorted E (maximize self)
                (gen_children s2 ++ gen_survivors s2) Hreal) as Hsorted.
  rewrite <- (pass_ranked Hp2) in Hsorted.
  destruct (gen_ranked s2) as [|x l]; [discriminate|].
  cbn in Hhd2. inversion Hhd2; subst x.
  destruct Hsurv as [Heq|Hin].
  - exists f1, f1. split; [exact Hf1|]. split.
    + rewrite Heq. reflexivity.
    + destruct (maximize self); cbn; apply Qle_refl.
  - inversion Hsorted as [|? ? _ Hall]; subst.
    rewrite Forall_forall in Hall. specialize (Hall _ Hin).
    destruct Hall as (a & b & Ha & Hb & Hord).
    cbn [fitness set_fitness] in Hb. inversion Hb; subst b.
    exists f1, a. split; [exact Hf1|]. split; [exact Ha|]. exact Hord.
Qed.

End Run.

(** ** Truncation selection *)

(** C9, as stated, fails: Python's [sorted] orders a list by [<], and every
    comparison with NaN is false.  A minimizing run whose fitness function
    returns NaN for one child of generation 1 ranks the candidates with the
    fitness values 3, NaN, 1, 3 in exactly that order, so the selected
    population of size 3 has the fitness values 3, NaN, 1: the value 3
    stands before the smaller value 1. *)
Lemma selected_population_unsorted_with_nan :
  1 <= population_size Demo.nan_child /\
  1 <= generations Demo.nan_child /\
  maximize Demo.nan_child = false /\
  exists s,
    nth_error (history (Demo.scripted_final Demo.nan_child)) 1 = Some s /\
    map fitness (gen_population s) = [Some (Real 3); Some NaN; Some (Real 1)] /\
    ~ (3 <= 1)%Q /\
    ~ StronglySorted (ranks_before (maximize Demo.nan_child)) (gen_population s).
Proof.
  split; [cbn; lia|]. split; [cbn; lia|]. split; [reflexivity|].
  destruct (nth_error (history (Demo.scripted_final Demo.nan_child)) 1)
    as [s|] eqn:Hs; [|vm_compute in Hs; discriminate].
  exists s. split; [reflexivity|].
  assert (Hfit : map fitness (gen_population s)
                 = [Some (Real 3); Some NaN; Some (Real 1)]).
  { vm_compute in Hs. injection Hs as <-. reflexivity. }
  assert (Hnle : ~ (3 <= 1)%Q).
  { intro H. vm_compute in H. apply H. reflexivity. }
  split; [exact Hfit|]. split; [exact Hnle|].
  clear Hs. intro Hsorted.
  destruct (gen_population s) as [|a [|b [|c l]]]; try discriminate Hfit.
  cbn [map] in Hfit. injection Hfit as Ha Hb Hc _.
  inversion Hsorted as [|? ? _ Hall]; subst.
  inversion Hall as [|? ? _ Hrest]; subst.
  inversion Hrest as [|? ? Hac _]; subst.
  destruct Hac as (x & y & Hx & Hy & Hord).
  rewrite Ha in Hx. rewrite Hc in Hy.
  injection Hx as <-. injection Hy as <-. exact (Hnle Hord).
Qed.

(** C9, amended: for every population size of at least 1 and every
    generation count of at least 1, the population after truncation
    selection has, in every generation of the run, at most as many members
    as the population size; and it is sorted by fitness in the configured
    direction (descending when maximizing, ascending when minimizing) in
    every generation in which the fitness function returns NaN for none of
    the candidates (the children and the aged survivors). *)
Theorem selected_population_sorted_and_bounded (E : Env) (self : EvoPy) (r : Rng E)
    (s : Snapshot) :
  1 <= population_size self ->
  1 <= generations self ->
  In s (history (snd (run E self (fresh E r)))) ->
  (all_real E (gen_children s ++ gen_survivors s) ->
   StronglySorted (ranks_before (maximize self)) (gen_population s)) /\
  Z.of_nat (length (gen_population s)) <= population_size self.
Proof.
  intros HP _ Hin.
  destruct (run_history E self r) as (pop0 & Hl & _).
  destruct (linked_pass E self _ _ _ _ _ _ Hl Hin) as (g & p & c & k & Hp).
  destruct (pass_population_sorted E self Hp) as [Hs Hlen].
  split; [exact Hs|apply Hlen; exact HP].
Qed.

Lemma selected_population_sorted_and_bounded_example :
  exists s,
    Demo.snapshot Demo.budgeted 1 = Some s /\
    map fitness (gen_population s) = [Some (Real 4); Some (Real 4)] /\
    StronglySorted (ranks_before (maximize Demo.budgeted)) (gen_population s) /\
    Z.of_nat (length (gen_population s)) <= population_size Demo.budgeted.
Proof.
  destruct (Demo.snapshot Demo.budgeted 1) as [s|] eqn:Hs;
    [|vm_compute in Hs; discriminate].
  exists s. split; [reflexivity|]. split.
  - vm_compute in Hs. injection Hs as <-. reflexivity.
  - destruct (selected_population_sorted_and_bounded Demo.env Demo.budgeted 0%nat s)
      as [Hsorted Hlen].
    + cbn; lia.
    + cbn; lia.
    + apply (nth_error_In _ 1). exact Hs.
    + split; [|exact Hlen]. apply Hsorted.
      apply real_valued_all_real. intro g. discriminate.
Defined.

(** ** Monotonic improvement *)

Lemma delivered_without_reporter (E : Env) (self : EvoPy) (hs : list Snapshot) :
  reporter self = false ->
  forall gens pop count calls,
  linked E self gens pop count calls hs -> delivered hs = [].
Proof.
  intro Hrep. induction hs as [|s hs IH]; intros gens pop count calls Hl;
    [reflexivity|].
  destruct gens as [|g gens]; [destruct Hl|].
  destruct Hl as (Hp & _ & Hrest).
  pose proof (pass_report Hp) as Hr. rewrite Hrep in Hr.
  rewrite delivered_cons. unfold delivered at 1. cbn [flat_map].
  rewrite Hr. cbn [app]. eapply IH; eassumption.
Qed.

(** C1, as stated, fails: with the default maximum age 0 no candidate
    survives its generation, and a minimizing run whose children are worse
    than their parents reports the best fitness 1 at generation 0 and the
    best fitness 4 at generation 1. *)
Lemma reported_best_can_worsen :
  maximize Demo.drifting = false /\
  max_age Demo.drifting = 0 /\
  map (fun p => (rep_generation p, rep_best_fitness p))
      (reported (Demo.final Demo.drifting))
    = [(0, Some (Real 1)); (1, Some (Real 4))] /\
  ~ (4 <= 1)%Q.
Proof.
  split; [reflexivity|]. split; [reflexivity|]. split.
  - vm_compute. reflexivity.
  - intro H. vm_compute in H. apply H. reflexivity.
Qed.

(** A surviving best candidate is not enough when a fitness is NaN: in the
    minimizing run with the maximum age 2 the best candidate of generation
    0 has the fitness 1 and the age 0 and survives into generation 1, where
    the candidates with the fitness values 3, NaN, 1, 3 keep that order and
    the reported best fitness is 3. *)
Lemma surviving_best_overtaken_with_nan :
  maximize Demo.nan_child = false /\
  max_age Demo.nan_child = 2 /\
  map (fun p => (rep_generation p, rep_best_fitness p, age (rep_best p)))
      (reported (Demo.scripted_final Demo.nan_child))
    = [(0, Some (Real 1), 0%nat); (1, Some (Real 3), 0%nat)] /\
  map (fun s => map fitness (gen_ranked s))
      (history (Demo.scripted_final Demo.nan_child))
    = [[Some (Real 1); Some (Real 3)];
       [Some (Real 3); Some NaN; Some (Real 1); Some (Real 3)]] /\
  ~ (3 <= 1)%Q.
Proof.
  split; [reflexivity|]. split; [reflexivity|]. split; [|split].
  - vm_compute. reflexivity.
  - vm_compute. reflexivity.
  - intro H. vm_compute in H. apply H. reflexivity.
Qed.

(** C1, amended: in every run, if the best candidate reported at
    generation g is younger than the configured maximum age (so that it
    survives the aging step of generation g+1) and the fitness function
    returns NaN for none of the candidates of generation g+1 (its children
    and aged survivors), then the best fitness reported at generation g+1
    is less than or equal to the one reported at generation g for a
    minimizing run, and greater than or equal for a maximizing run. *)
Theorem reported_best_monotone_while_best_survives (E : Env) (self : EvoPy)
    (r : Rng E) (g : nat) (r1 r2 : ProgressReport) :
  nth_error (reported (snd (run E self (fresh E r)))) g = Some r1 ->
  nth_error (reported (snd (run E self (fresh E r)))) (S g) = Some r2 ->
  Z.of_nat (age (rep_best r1)) < max_age self ->
  (forall s, nth_error (history (snd (run E self (fresh E r)))) (S g) = Some s ->
             all_real E (gen_children s ++ gen_survivors s)) ->
  rep_generation r1 = Z.of_nat g /\
  rep_generation r2 = Z.of_nat (S g) /\
  exists f1 f2,
    rep_best_fitness r1 = Some (Real f1) /\
    rep_best_fitness r2 = Some (Real f2) /\
    if maximize self then (f1 <= f2)%Q else (f2 <= f1)%Q.
Proof.
  intros H1 H2 Hage Hreal.
  destruct (run_history E self r) as (pop0 & Hl & Hrep & _).
  rewrite Hrep in H1, H2.
  destruct (reporter self) eqn:Hreporter.
  - destruct (delivered_nth E self _ Hreporter _ _ _ _ _ _ Hl H1)
      as (s1 & Hs1 & _ & Hg1 & _ & Hb1 & _ & Hf1 & _).
    destruct (delivered_nth E self _ Hreporter _ _ _ _ _ _ Hl H2)
      as (s2 & Hs2 & _ & Hg2 & _ & _ & _ & Hf2 & _).
    rewrite Hb1 in Hage.
    destruct (surviving_best_bounds_next E self _ _ _ _ _ _ _ _ Hl Hs1 Hs2 Hage
                (Hreal s2 Hs2))
      as (f1 & f2 & Hv1 & Hv2 & Hord).
    split; [|split].
    + rewrite Hg1. apply (range_nth (generations self)).
      eapply linked_index; eassumption.
    + rewrite Hg2. apply (range_nth (generations self)).
      eapply linked_index; eassumption.
    + exists f1, f2. rewrite Hf1, Hf2.
      split; [exact Hv1|]. split; [exact Hv2|]. exact Hord.
  - rewrite (delivered_without_reporter E self _ Hreporter _ _ _ _ Hl) in H1.
    destruct g; discriminate.
Qed.

(** With the maximum age 5 the candidate at the origin stays the best: the
    reported best fitness is 0 at generation 0 and at generation 1. *)
Lemma reported_best_monotone_while_best_survives_example :
  exists r1 r2,
    nth_error (reported (Demo.final Demo.persistent)) 0 = Some r1 /\
    nth_error (reported (Demo.final Demo.persistent)) 1 = Some r2 /\
    Z.of_nat (age (rep_best r1)) < max_age Demo.persistent /\
    (forall s, Demo.snapshot Demo.persistent 1 = Some s ->
               all_real Demo.env (gen_children s ++ gen_survivors s)) /\
    exists f1 f2,
      rep_best_fitness r1 = Some (Real f1) /\
      rep_best_fitness r2 = Some (Real f2) /\
      (f2 <= f1)%Q.
Proof.
  destruct (nth_error (reported (Demo.final Demo.persistent)) 0) as [r1|] eqn:H1;
    [|vm_compute in H1; discriminate].
  destruct (nth_error (reported (Demo.final Demo.persistent)) 1) as [r2|] eqn:H2;
    [|vm_compute in H2; discriminate].
  assert (Hage : Z.of_nat (age (rep_best r1)) < max_age Demo.persistent).
  { vm_compute in H1. injection H1 as <-. vm_compute. reflexivity. }
  assert (Hreal : forall s, Demo.snapshot Demo.persistent 1 = Some s ->
                            all_real Demo.env (gen_children s ++ gen_survivors s)).
  { intros s _. apply real_valued_all_real. intros g Hg. discriminate Hg. }
  exists r1, r2. split; [reflexivity|]. split; [reflexivity|]. split; [exact Hage|].
  split; [exact Hreal|].
  exact (proj2 (proj2 (reported_best_monotone_while_best_survives
                         Demo.env Demo.persistent 0%nat 0%nat r1 r2 H1 H2 Hage
                         Hreal))).
Defined.

(** ** Early stopping *)

(** The scenario of the specification: a best fitness of [1e-6] is within
    the tolerance [1e-5] of the target 0. *)
Lemma near_zero_within_tolerance (target f tolerance : Q) :
  (target == 0)%Q -> (tolerance == 1 # 100000)%Q -> (f == 1 # 1000000)%Q ->
  (Qabs (f - target) < tolerance)%Q.
Proof.
  intros Ht Htol Hf. rewrite Htol, Hf, Ht. reflexivity.
Qed.

(** C4: in every generation the loop decides to stop exactly when one of
    the three early-stop conditions holds (the time elapsed at the check
    exceeds [max_run_time]; the absolute difference between the best
    fitness and the target is strictly below the tolerance; the evaluation
    counter has reached [max_evaluations]) or the generation is the final
    configured one.  When it decides to stop, that generation is the last
    one of the run, the run returns the genotype of its best candidate, and
    the report of that generation, if a reporter is configured, carries the
    terminal flag.  In particular a best fitness of [1e-6] with the target
    0 and the tolerance [1e-5] stops the run in that generation. *)
Theorem stop_conditions_end_the_run (E : Env) (self : EvoPy) (r : Rng E)
    (s : Snapshot) :
  In s (history (snd (run E self (fresh E r)))) ->
  (gen_should_stop s = true <-> stop_condition self s) /\
  (stop_condition self s ->
     (exists earlier, history (snd (run E self (fresh E r))) = earlier ++ [s]) /\
     fst (run E self (fresh E r)) = Ok (Some (genotype (gen_best s))) /\
     (reporter self = true ->
      exists earlier rp,
        reported (snd (run E self (fresh E r))) = earlier ++ [rp] /\
        rep_generation rp = gen_index s /\ rep_terminal rp = true)) /\
  (forall target f,
     target_fitness_value self = Some target ->
     fitness (gen_best s) = Some (Real f) ->
     (target == 0)%Q -> (target_tolerance self == 1 # 100000)%Q ->
     (f == 1 # 1000000)%Q ->
     gen_should_stop s = true).
Proof.
  intro Hin.
  destruct (run_history E self r) as (pop0 & Hl & Hrep & _ & Hres).
  destruct (linked_pass E self _ _ _ _ _ _ Hl Hin) as (g & p & c & k & Hp).
  pose proof (pass_stop Hp) as Hstop.
  split; [exact Hstop|]. split.
  - intro Hcond. apply Hstop in Hcond.
    destruct (linked_stop_last E self _ _ _ _ _ _ Hl Hin Hcond) as [earlier Hlast].
    split; [exists earlier; exact Hlast|].
    split; [apply Hres; assumption|].
    intro Hreporter. pose proof (pass_report Hp) as Hr. rewrite Hreporter in Hr.
    destruct Hr as (rp & Hrp & Hg & _ & _ & _ & _ & Hterm).
    exists (delivered earlier), rp. rewrite Hrep, Hlast, delivered_app.
    split.
    + unfold delivered at 2. cbn [flat_map]. rewrite Hrp. reflexivity.
    + split; [exact Hg|]. rewrite Hterm. exact Hcond.
  - intros target f Ht Hf Hzero Htol Hval. apply Hstop.
    right; left. exists target, f.
    split; [exact Ht|]. split; [exact Hf|].
    apply near_zero_within_tolerance; assumption.
Qed.

(** A run of fifty generations that starts at the fitness [1e-6] stops in
    generation 0: the history has one snapshot, the run returns its best
    genotype and the single report is terminal. *)
Lemma stop_conditions_end_the_run_example :
  generations Demo.near_target = 50 /\
  exists s,
    Demo.snapshot Demo.near_target 0 = Some s /\
    gen_index s = 0 /\
    fitness (gen_best s) = Some (Real (1 # 1000000)) /\
    gen_should_stop s = true /\
    (exists earlier, history (Demo.final Demo.near_target) = earlier ++ [s]) /\
    fst (run Demo.env Demo.near_target (fresh Demo.env 0%nat)) =
      Ok (Some (genotype (gen_best s))) /\
    exists earlier rp,
      reported (Demo.final Demo.near_target) = earlier ++ [rp] /\
      rep_generation rp = gen_index s /\ rep_terminal rp = true.
Proof.
  split; [reflexivity|].
  destruct (Demo.snapshot Demo.near_target 0) as [s|] eqn:Hs;
    [|vm_compute in Hs; discriminate].
  assert (Hvals : gen_index s = 0 /\
                  fitness (gen_best s) = Some (Real (1 # 1000000))).
  { vm_compute in Hs. injection Hs as <-. split; reflexivity. }
  destruct Hvals as [Hidx Hfit].
  destruct (stop_conditions_end_the_run Demo.env Demo.near_target 0%nat s
              (nth_error_In _ 0 Hs)) as (Hiff & Hend & Hnear).
  assert (Hstop : gen_should_stop s = true).
  { apply (Hnear 0%Q (1 # 1000000)%Q);
      [reflexivity | exact Hfit | reflexivity | reflexivity | reflexivity]. }
  destruct (Hend (proj1 Hiff Hstop)) as (Hlast & Hres & Hrep).
  exists s. split; [reflexivity|]. split; [exact Hidx|]. split; [exact Hfit|].
  split; [exact Hstop|]. split; [exact Hlast|]. split; [exact Hres|].
  apply Hrep. reflexivity.
Defined.

(** ** Evaluation counting *)

Lemma linked_first (E : Env) (self : EvoPy) (hs : list Snapshot) (gens : list Z)
    (pop : list Individual) (count : Z) (calls : nat) (s : Snapshot) :
  linked E self gens pop count calls hs -> nth_error hs 0 = Some s ->
  exists g, pass E self g pop count calls s.
Proof.
  intros Hl Hn. destruct hs as [|s0 hs]; [discriminate|].
  cbn in Hn. inversion Hn; subst.
  destruct gens as [|g gens]; [destruct Hl|].
  destruct Hl as (Hp & _). exists g. exact Hp.
Qed.

(** C5: in every generation of the loop the evaluation counter increases
    by exactly the size of the union of the newly produced offspring and
    the aged survivors (the list that is evaluated and ranked), so the
    counter after generation g, which is the count that generation
    reports, is the sum of these sizes over the generations 0..g. *)
Theorem evaluations_count_union_sizes (E : Env) (self : EvoPy) (r : Rng E)
    (g : nat) (s : Snapshot) :
  nth_error (history (snd (run E self (fresh E r)))) g = Some s ->
  gen_index s = Z.of_nat g /\
  length (gen_ranked s) = (length (gen_children s) + length (gen_survivors s))%nat /\
  gen_evaluations s =
    match g with
    | O => 0
    | S g' =>
        match nth_error (history (snd (run E self (fresh E r)))) g' with
        | Some before => gen_evaluations before
        | None => 0
        end
    end + Z.of_nat (length (gen_children s) + length (gen_survivors s)) /\
  gen_evaluations s =
    total (firstn (S g) (union_sizes (history (snd (run E self (fresh E r)))))) /\
  (forall rp, gen_report s = Some rp -> rep_evaluations rp = gen_evaluations s).
Proof.
  intro Hn.
  destruct (run_history E self r) as (pop0 & Hl & _).
  destruct (linked_pass E self _ _ _ _ _ _ Hl (nth_error_In _ _ Hn))
    as (gi & p & c & k & Hp).
  split; [|split; [|split; [|split]]].
  - apply (range_nth (generations self)). eapply linked_index; eassumption.
  - apply (pass_union_size E self Hp).
  - destruct g as [|g'].
    + destruct (linked_first E self _ _ _ _ _ _ Hl Hn) as (g0 & Hp0).
      rewrite (pass_evaluations Hp0), (pass_union_size E self Hp0). reflexivity.
    + destruct (nth_error (history (snd (run E self (fresh E r)))) g')
        as [before|] eqn:Hb.
      * destruct (linked_adjacent E self _ _ _ _ _ _ _ _ Hl Hb Hn)
          as (_ & g1 & Hp1).
        rewrite (pass_evaluations Hp1), (pass_union_size E self Hp1). reflexivity.
      * exfalso. apply nth_error_None in Hb.
        assert (Hlt : (S g' < length (history (snd (run E self (fresh E r)))))%nat)
          by (apply nth_error_Some; congruence).
        lia.
  - rewrite (linked_evaluations E self _ _ _ _ _ _ _ Hl Hn). lia.
  - intros rp Hrp. pose proof (pass_report Hp) as Hr.
    destruct (reporter self).
    + destruct Hr as (rp' & Hrp' & _ & Hev & _). congruence.
    + congruence.
Qed.

(** In the budgeted run the first generation evaluates 2 children and 2
    survivors, the second 2 children and 1 survivor: the counter reads 4
    and then 7. *)
Lemma evaluations_count_union_sizes_example :
  exists s,
    Demo.snapshot Demo.budgeted 1 = Some s /\
    union_sizes (history (Demo.final Demo.budgeted)) = [4; 3] /\
    gen_evaluations s = 7 /\
    gen_evaluations s =
      total (firstn 2 (union_sizes (history (Demo.final Demo.budgeted)))).
Proof.
  destruct (Demo.snapshot Demo.budgeted 1) as [s|] eqn:Hs;
    [|vm_compute in Hs; discriminate].
  exists s. split; [reflexivity|]. split; [vm_compute; reflexivity|]. split.
  - vm_compute in Hs. injection Hs as <-. reflexivity.
  - exact (proj1 (proj2 (proj2 (proj2
             (evaluations_count_union_sizes Demo.env Demo.budgeted 0%nat 1 s Hs))))).
Defined.

(** C10: the evaluations of the initial population, one per initial
    candidate, are never added to the evaluation counter: in every
    generation the number of calls of the fitness function made so far is
    the counter plus the size of the initial population, and the
    [max_evaluations] budget is compared against the counter, that is
    against the number of calls without the initial ones. *)
Theorem initial_evaluations_not_counted (E : Env) (self : EvoPy) (r : Rng E)
    (pop0 : list Individual) (w0 : World E) (s : Snapshot) :
  _init_population E self (started E r) = (Ok pop0, w0) ->
  In s (history (snd (run E self (fresh E r)))) ->
  evaluations (fresh E r) = 0 /\
  Z.of_nat (gen_fitness_calls s) = gen_evaluations s + Z.of_nat (length pop0) /\
  (evaluation_budget_hit self s <->
   exists limit, max_evaluations self = Some limit /\
                 limit <= Z.of_nat (gen_fitness_calls s) - Z.of_nat (length pop0)) /\
  (evaluation_budget_hit self s -> gen_should_stop s = true).
Proof.
  intros Hinit Hin.
  destruct (run_history E self r) as (pop & Hl & _ & Hlen & _).
  assert (HL : individual_length self <> 0).
  { intro H0. rewrite (run_zero_length E self (fresh E r) H0) in Hin.
    destruct Hin. }
  specialize (Hlen pop0 w0 Hinit HL).
  pose proof (linked_counts E self _ _ _ _ _ _ Hl Hin) as Hcount.
  destruct (linked_pass E self _ _ _ _ _ _ Hl Hin) as (g & p & c & k & Hp).
  assert (Hcalls : Z.of_nat (gen_fitness_calls s) =
                   gen_evaluations s + Z.of_nat (length pop0)) by lia.
  split; [reflexivity|]. split; [exact Hcalls|]. split.
  - unfold evaluation_budget_hit. rewrite Hcalls.
    replace (gen_evaluations s + Z.of_nat (length pop0) - Z.of_nat (length pop0))
      with (gen_evaluations s) by lia.
    reflexivity.
  - intro Hb. apply (pass_stop Hp). right; right; left. exact Hb.
Qed.

(** In the budgeted run, with two initial candidates and a budget of 5:
    after generation 1 the fitness function has been called 9 times, the
    counter reads 7, and the budget is hit. *)
Lemma initial_evaluations_not_counted_example :
  exists pop0 w0 s,
    _init_population Demo.env Demo.budgeted (started Demo.env 0%nat) = (Ok pop0, w0) /\
    length pop0 = 2%nat /\
    Demo.snapshot Demo.budgeted 1 = Some s /\
    gen_fitness_calls s = 9%nat /\
    gen_evaluations s = 7 /\
    Z.of_nat (gen_fitness_calls s) = gen_evaluations s + Z.of_nat (length pop0) /\
    gen_should_stop s = true.
Proof.
  destruct (_init_population Demo.env Demo.budgeted (started Demo.env 0%nat))
    as [[pop0|e] w0] eqn:Hinit; [|vm_compute in Hinit; discriminate].
  destruct (Demo.snapshot Demo.budgeted 1) as [s|] eqn:Hs;
    [|vm_compute in Hs; discriminate].
  destruct (initial_evaluations_not_counted Demo.env Demo.budgeted 0%nat pop0 w0 s
              Hinit (nth_error_In _ 1 Hs)) as (_ & Hcalls & _ & Hstop).
  exists pop0, w0, s. split; [reflexivity|].
  assert (Hvals : length pop0 = 2%nat /\ gen_fitness_calls s = 9%nat /\
                  gen_evaluations s = 7).
  { vm_compute in Hinit. injection Hinit as <- _.
    vm_compute in Hs. injection Hs as <-. repeat split; reflexivity. }
  destruct Hvals as (Hlen & Hfc & Hev).
  split; [exact Hlen|]. split; [reflexivity|]. split; [exact Hfc|].
  split; [exact Hev|]. split; [exact Hcalls|].
  apply Hstop. exists 5. split; [reflexivity|]. rewrite Hev. lia.
Defined.

(** * Further properties of the engine *)

(** ** When the building blocks return *)

Section Totality.

Variable E : Env.
Variable self : EvoPy.

Lemma reproduce_each_length (pop : list Individual) (r : Rng E) :
  length (fst (reproduce_each E pop r)) = length pop.
Proof.
  revert r. induction pop as [|p pop IH]; intro r; [reflexivity|].
  cbn [reproduce_each]. destruct (reproduce E p r) as [child r1].
  specialize (IH r1). destruct (reproduce_each E pop r1) as [others r2].
  cbn [fst length] in *. rewrite IH. reflexivity.
Qed.

Lemma reproduce_rounds_length (rounds : nat) (pop : list Individual) (r : Rng E) :
  length (fst (reproduce_rounds E rounds pop r)) = (rounds * length pop)%nat.
Proof.
  revert r. induction rounds as [|k IH]; intro r; [reflexivity|].
  cbn [reproduce_rounds].
  pose proof (reproduce_each_length pop r) as H1.
  destruct (reproduce_each E pop r) as [first r1].
  specialize (IH r1). destruct (reproduce_rounds E k pop r1) as [others r2].
  cbn [fst] in *. rewrite length_app, H1, IH. reflexivity.
Qed.

Lemma fitness_values_total (l : list Individual) (w : World E) :
  Forall (fun i => fitness i <> None) l ->
  exists vs, fitness_values E l w = (Ok vs, w).
Proof.
  induction 1 as [|i l Hi _ IH]; cbn [fitness_values].
  - exists []. reflexivity.
  - destruct (fitness i) as [v|]; [|contradiction].
    destruct IH as [vs Hvs]. exists (v :: vs).
    unfold bind. rewrite Hvs. reflexivity.
Qed.

Lemma check_early_stop_total (start : Q) (best : Individual) (w : World E) :
  fitness best <> None ->
  exists b w', _check_early_stop E self start best w = (Ok b, w').
Proof.
  intro Hf. unfold _check_early_stop, bind, ret, raise, read_evaluations, time_time.
  destruct (fitness best) as [f|]; [|contradiction].
  destruct (max_run_time self) as [limit|].
  - destruct (Qltb limit _); [eauto|].
    destruct (target_fitness_value self) as [target|].
    + destruct (within_tolerance _ _ _); [eauto|].
      destruct (max_evaluations self); eauto.
    + destruct (max_evaluations self); eauto.
  - destruct (target_fitness_value self) as [target|].
    + destruct (within_tolerance _ _ _); [eauto|].
      destruct (max_evaluations self); eauto.
    + destruct (max_evaluations self); eauto.
Qed.

Lemma ranking_has_fitness (reverse : bool) (l : list Individual) (i : Individual) :
  In i (ranking E reverse l) -> fitness i <> None.
Proof.
  intro H. apply ranking_evaluated in H. destruct H as (j & _ & ->).
  discriminate.
Qed.

(** The only way in which a pass of the loop body raises: the selected
    population is empty, and [population[0]] raises [IndexError]. *)
Lemma generation_body_raise_empty (start : Q) (g : Z) (pop : list Individual)
    (e : Exn) (w w' : World E) :
  generation_body E self start g pop w = (Raise e, w') ->
  e = IndexError /\
  slice_to (population_size self)
    (ranking E (maximize self)
       (fst (reproduce_rounds E (Z.to_nat (num_children self)) pop (random w))
        ++ _age_population self pop)) = [] /\
  evaluations w' =
    evaluations w +
    Z.of_nat (length (fst (reproduce_rounds E (Z.to_nat (num_children self)) pop
                             (random w)) ++ _age_population self pop)) /\
  fitness_calls w' =
    (fitness_calls w +
     length (fst (reproduce_rounds E (Z.to_nat (num_children self)) pop
                    (random w)) ++ _age_population self pop))%nat.
Proof.
  unfold generation_body, sorted_by_fitness, evaluate_all.
  unfold bind, with_random, add_fitness_calls, add_evaluations, read_clock_calls,
    read_evaluations, read_fitness_calls, record_generation, call_reporter,
    item0, ret, raise.
  destruct (reproduce_rounds E (Z.to_nat (num_children self)) pop (random w))
    as [children r1].
  cbv beta iota zeta.
  cbn [random evaluations clock_calls fitness_calls reported history fst snd].
  fold (ranking E (maximize self) (children ++ _age_population self pop)).
  set (ranked := ranking E (maximize self) (children ++ _age_population self pop)).
  destruct (slice_to (population_size self) ranked) as [|b rest] eqn:Hslice;
    cbv beta iota zeta;
    cbn [random evaluations clock_calls fitness_calls reported history fst snd].
  - intros [= <- <-]. cbn [evaluations fitness_calls].
    unfold ranked. rewrite ranking_length.
    split; [reflexivity|]. split; [reflexivity|]. split; reflexivity.
  - assert (Hall : Forall (fun i => fitness i <> None) (b :: rest)).
    { rewrite Forall_forall. intros i Hi. rewrite <- Hslice in Hi.
      apply slice_to_incl in Hi. eapply ranking_has_fitness; exact Hi. }
    assert (Hb : fitness b <> None) by (inversion Hall; assumption).
    match goal with
    | |- context [_check_early_stop E self start b ?w2] =>
        destruct (check_early_stop_total start b w2 Hb) as (early & w3 & Hc);
        rewrite Hc
    end.
    cbv beta iota zeta.
    destruct (reporter self).
    + destruct (fitness_values_total (b :: rest) w3 Hall) as [vs Hvs].
      rewrite Hvs. unfold time_time. cbv beta iota zeta. discriminate.
    + cbv beta iota zeta. discriminate.
Qed.

End Totality.

(** ** How the loop and the run end *)

Section Outcome.

Variable E : Env.
Variable self : EvoPy.

Lemma slice_to_nonempty {A : Type} (k : Z) (l : list A) :
  1 <= k -> l <> [] -> slice_to k l <> [].
Proof.
  intros Hk Hl. unfold slice_to.
  destruct (k <? 0) eqn:Hneg; [apply Z.ltb_lt in Hneg; lia|].
  destruct l as [|x l]; [contradiction|].
  destruct (Z.to_nat k) as [|n] eqn:Hn; [lia|]. discriminate.
Qed.

(** The loop runs at most one pass per generation of its range; it returns
    after a pass that decided to stop or after the last generation, and it
    raises nothing but the [IndexError] of an empty selection. *)
Lemma loop_outcome (start : Q) (gens : list Z) :
  forall (pop : list Individual) (best : Individual) (w w' : World E)
         (r : Result Individual),
  loop E self start gens pop best w = (r, w') ->
  exists hs,
    history w' = history w ++ hs /\
    (length hs <= length gens)%nat /\
    match r with
    | Ok _ => (exists s, In s hs /\ gen_should_stop s = true) \/
              length hs = length gens
    | Raise e => e = IndexError /\ (length hs < length gens)%nat
    end.
Proof.
  induction gens as [|g rest IH]; intros pop best w w' r; cbn [loop].
  - unfold ret. intros [= <- <-]. exists []. rewrite app_nil_r.
    split; [reflexivity|]. split; [apply Nat.le_refl|]. right; reflexivity.
  - unfold bind.
    destruct (generation_body E self start g pop w) as [[[[pop1 best1] stop]|e] w1]
      eqn:Hbody.
    + apply generation_body_ok in Hbody.
      destruct Hbody as (s & _ & -> & -> & -> & Hh & _).
      destruct (gen_should_stop s) eqn:Hstop; cbv beta iota.
      * unfold ret. intros [= <- <-]. exists [s].
        split; [exact Hh|]. split; [cbn; lia|].
        left. exists s. split; [left; reflexivity|exact Hstop].
      * intro Hloop. apply IH in Hloop. destruct Hloop as (hs & Hh' & Hlen & Hr).
        exists (s :: hs). rewrite Hh, <- app_assoc in Hh'.
        split; [exact Hh'|]. split; [cbn; lia|].
        destruct r as [b|e].
        -- destruct Hr as [(s' & Hin & Hs')|Heq].
           ++ left. exists s'. split; [right; exact Hin|exact Hs'].
           ++ right. cbn. rewrite Heq. reflexivity.
        -- destruct Hr as [He Hlt]. split; [exact He|cbn; lia].
    + pose proof (generation_body_raise E self _ _ _ _ _ _ Hbody) as [Hh _].
      apply generation_body_raise_empty in Hbody. destruct Hbody as (-> & _).
      intros [= <- <-]. exists []. rewrite app_nil_r.
      split; [exact Hh|]. split; [cbn; lia|]. split; [reflexivity|cbn; lia].
Qed.

(** With room for at least one candidate and at least one child per
    parent, the loop returns from every non-empty population. *)
Lemma loop_returns (start : Q) (gens : list Z) :
  1 <= population_size self -> 1 <= num_children self ->
  forall (pop : list Individual) (best : Individual) (w : World E),
  pop <> [] ->
  exists b w', loop E self start gens pop best w = (Ok b, w').
Proof.
  intros HP Hc.
  induction gens as [|g rest IH]; intros pop best w Hpop; cbn [loop].
  - unfold ret. eauto.
  - unfold bind.
    destruct (generation_body E self start g pop w) as [[[[pop1 best1] stop]|e] w1]
      eqn:Hbody.
    + apply generation_body_ok in Hbody.
      destruct Hbody as (s & Hp & -> & -> & -> & _).
      destruct (gen_should_stop s); cbv beta iota.
      * unfold ret. eauto.
      * apply IH. pose proof (pass_best Hp) as Hb.
        destruct (gen_population s); [discriminate|discriminate].
    + exfalso. apply generation_body_raise_empty in Hbody.
      destruct Hbody as (_ & Hslice & _).
      revert Hslice. apply slice_to_nonempty; [exact HP|].
      intro Hnil. apply (f_equal (@length _)) in Hnil.
      rewrite ranking_length, length_app, reproduce_rounds_length in Hnil.
      cbn [length] in Hnil.
      destruct pop as [|p pop]; [contradiction|]. cbn [length] in Hnil.
      assert (Hn : (1 <= Z.to_nat (num_children self))%nat) by lia.
      nia.
Qed.

Lemma with_random_eq {A : Type} (f : Rng E -> A * Rng E) (w : World E) :
  fst (with_random E f w) = Ok (fst (f (random w))).
Proof. unfold with_random. destruct (f (random w)). reflexivity. Qed.

Lemma draw_randn_value (n : Z) (w : World E) :
  0 <= n ->
  exists w', draw_randn E n w = (Ok (fst (randn E (Z.to_nat n) (random w))), w').
Proof.
  intro Hn. unfold draw_randn.
  destruct (n <? 0) eqn:Hneg; [apply Z.ltb_lt in Hneg; lia|].
  pose proof (with_random_eq (randn E (Z.to_nat n)) w) as H.
  destruct (with_random E (randn E (Z.to_nat n)) w) as [res w'].
  cbn [fst] in H. subst res. eauto.
Qed.

Lemma draw_normal_value (loc scale : Q) (n : Z) (w : World E) :
  (0 <= scale)%Q -> 0 <= n ->
  exists w',
    draw_normal E loc scale n w =
      (Ok (fst (normal E loc scale (Z.to_nat n) (random w))), w').
Proof.
  intros Hs Hn. unfold draw_normal, Qltb.
  apply Qle_bool_iff in Hs. rewrite Hs. cbn [negb].
  destruct (n <? 0) eqn:Hneg; [apply Z.ltb_lt in Hneg; lia|].
  pose proof (with_random_eq (normal E loc scale (Z.to_nat n)) w) as H.
  destruct (with_random E (normal E loc scale (Z.to_nat n)) w) as [res w'].
  cbn [fst] in H. subst res. eauto.
Qed.

(** Sampling [n] genotypes returns [n] rows, each one a draw of
    [normal(loc=0, scale=std, size=individual_length)]. *)
Lemma sample_rows_value (n : nat) (w : World E) :
  (n = 0%nat \/ ((0 <= std self)%Q /\ 0 <= individual_length self)) ->
  exists rows w',
    sample_rows E self n w = (Ok rows, w') /\ length rows = n /\
    Forall (fun row => exists r,
              row = fst (normal E 0 (std self)
                           (Z.to_nat (individual_length self)) r)) rows.
Proof.
  revert w. induction n as [|n IH]; intros w Hpre; cbn [sample_rows].
  - exists [], w. unfold ret. repeat split. constructor.
  - destruct Hpre as [Hn|[Hs HL]]; [discriminate|].
    destruct (draw_normal_value 0 (std self) (individual_length self) w Hs HL)
      as (w1 & Hd).
    destruct (IH w1 (or_intror (conj Hs HL))) as (rows & w2 & Hr & Hlen & Hall).
    exists (fst (normal E 0 (std self) (Z.to_nat (individual_length self))
                   (random w)) :: rows), w2.
    unfold bind. rewrite Hd, Hr. unfold ret.
    split; [reflexivity|]. split; [cbn; rewrite Hlen; reflexivity|].
    constructor; [eauto|exact Hall].
Qed.

(** What [_init_population] returns when its preconditions hold. *)
Lemma init_population_value (w : World E) :
  can_initialize self ->
  exists rows w',
    _init_population E self w =
      (Ok (map (fun parameters =>
                  mkIndividual parameters (strategy self)
                    (fst (randn E (strategy_size self) (random w)))
                    (bounds self) (forces_config self) (mutation_rate self) 0 None)
               (clip_rows (bounds self) rows)), w') /\
    length rows = initial_size self /\
    (forall ws, warm_start self = Some ws -> rows = ws) /\
    (warm_start self = None ->
     Forall (fun row => exists r,
               row = fst (normal E 0 (std self)
                            (Z.to_nat (individual_length self)) r)) rows).
Proof.
  intros (Hrec & Hmul & Hsample).
  assert (Hdraw : exists w1,
            match strategy self with
            | SINGLE_VARIANCE => draw_randn E 1
            | MULTIPLE_VARIANCE => draw_randn E (individual_length self)
            | FULL_VARIANCE =>
                draw_randn E
                  (Z.quot ((individual_length self + 1) * individual_length self) 2)
            | NotAStrategy _ => raise (ValueError not_a_strategy)
            end w = (Ok (fst (randn E (strategy_size self) (random w))), w1)).
  { unfold strategy_size. destruct (strategy self); try discriminate.
    - apply (draw_randn_value 1). lia.
    - apply draw_randn_value. apply Hmul. reflexivity.
    - apply draw_randn_value. apply Z.quot_pos; [nia|lia]. }
  destruct Hdraw as (w1 & Hdraw).
  unfold _init_population. unfold bind at 1. rewrite Hdraw.
  unfold bind, initial_size. destruct (warm_start self) as [ws|].
  - exists ws, w1. unfold ret.
    split; [reflexivity|]. split; [reflexivity|].
    split; [intros ? [= <-]; reflexivity|discriminate].
  - assert (Hpre : Z.to_nat (population_size self) = 0%nat \/
                   ((0 <= std self)%Q /\ 0 <= individual_length self)).
    { destruct (Z_lt_le_dec (population_size self) 1) as [Hlt|Hge].
      - left. lia.
      - right. apply Hsample; [reflexivity|exact Hge]. }
    destruct (sample_rows_value (Z.to_nat (population_size self)) w1 Hpre)
      as (rows & w2 & Hs & Hlen & Hall).
    exists rows, w2. rewrite Hs. unfold ret.
    split; [reflexivity|]. split; [exact Hlen|].
    split; [discriminate|intros _; exact Hall].
Qed.

(** [run] for a genotype of non-zero length, one step unfolded: the
    initial population is built, evaluated and ranked, and the loop starts
    from the initial population in its original order. *)
Lemma run_unfold (r : Rng E) :
  individual_length self <> 0 ->
  run E self (fresh E r) =
    match _init_population E self (started E r) with
    | (Raise e, w1) => (Raise e, w1)
    | (Ok pop, w1) =>
        match ranking E (maximize self) pop with
        | [] => (Raise IndexError, snd (add_fitness_calls E (length pop) w1))
        | best :: _ =>
            match loop E self (now E 0) (range (generations self))
                    (map snd (map (evaluate E) pop)) best
                    (snd (add_fitness_calls E (length pop) w1)) with
            | (Ok b, w3) => (Ok (Some (genotype b)), w3)
            | (Raise e, w3) => (Raise e, w3)
            end
        end
    end.
Proof.
  intro HL. unfold run. apply Z.eqb_neq in HL. rewrite HL.
  unfold bind at 1. unfold time_time at 1.
  cbn [fresh clock_calls random evaluations fitness_calls reported history].
  change {| random := r; evaluations := 0; clock_calls := 1; fitness_calls := 0;
            reported := []; history := [] |} with (started E r).
  unfold bind at 1.
  destruct (_init_population E self (started E r)) as [[pop|e] w1]; [|reflexivity].
  unfold evaluate_all, bind at 1. unfold bind at 1.
  unfold add_fitness_calls at 1, ret at 1. cbv beta iota zeta.
  unfold bind at 1. unfold item0, ranking.
  destruct (map snd (sorted_keyed (unordered_sort E) (maximize self)
                        (map (evaluate E) pop)))
    as [|best ranked]; cbv beta iota zeta.
  - reflexivity.
  - unfold ret at 1; cbv beta iota zeta. unfold bind at 1.
    unfold add_fitness_calls. cbn [snd].
    match goal with
    | |- context [loop E self ?st ?gs ?p ?b ?w2] =>
        destruct (loop E self st gs p b w2) as [[b'|e] w3]
    end; reflexivity.
Qed.

End Outcome.

(** ** The initial population *)

Lemma np_clip_bounded (lo hi x : Q) :
  (lo <= hi)%Q -> (lo <= np_clip lo hi x)%Q /\ (np_clip lo hi x <= hi)%Q.
Proof.
  intro Hb. unfold np_clip.
  destruct (Qle_bool lo x) eqn:Hlo.
  - apply Qle_bool_iff in Hlo. destruct (Qle_bool x hi) eqn:Hhi.
    + apply Qle_bool_iff in Hhi. split; assumption.
    + split; [exact Hb|apply Qle_refl].
  - apply Qle_bool_iff in Hb. rewrite Hb. apply Qle_bool_iff in Hb.
    split; [apply Qle_refl|exact Hb].
Qed.

Lemma clip_rows_length (b : option (Q * Q)) (rows : list (list Q)) :
  length (clip_rows b rows) = length rows /\
  map (@length Q) (clip_rows b rows) = map (@length Q) rows.
Proof.
  unfold clip_rows. destruct b as [[lo hi]|]; [|split; reflexivity].
  rewrite length_map, map_map. split; [reflexivity|].
  apply map_ext. intro row. apply length_map.
Qed.

(** X1: when its preconditions hold, [_init_population] returns one
    candidate per warm-start row, or [population_size] sampled ones (none
    for a negative size); every candidate has the age 0, no fitness, the
    configured strategy and bounds and the same strategy-parameter vector.
    With a generator that returns vectors of the requested size, that
    vector has the size 1, L or (L+1)L/2 of the strategy, and every sampled
    genotype has the length L. *)
Theorem initial_population_shape (E : Env) (self : EvoPy) (w : World E) :
  can_initialize self ->
  exists population w',
    _init_population E self w = (Ok population, w') /\
    length population = initial_size self /\
    Forall (fun i => age i = 0%nat /\ fitness i = None /\
                     ind_strategy i = strategy self /\
                     ind_bounds i = bounds self /\
                     strategy_parameters i =
                       fst (randn E (strategy_size self) (random w)))
           population /\
    (well_sized E ->
     Forall (fun i => length (strategy_parameters i) = strategy_size self)
            population /\
     (warm_start self = None ->
      Forall (fun i => length (genotype i) = Z.to_nat (individual_length self))
             population)).
Proof.
  intro Hcan.
  destruct (init_population_value E self w Hcan) as (rows & w' & Hinit & Hlen & _ & Hs).
  eexists. exists w'. split; [exact Hinit|].
  split; [rewrite length_map; rewrite (proj1 (clip_rows_length _ _)); exact Hlen|].
  split.
  - rewrite Forall_forall. intros i Hi. apply in_map_iff in Hi.
    destruct Hi as (row & <- & _). repeat split.
  - intros [Hrandn Hnormal]. split.
    + rewrite Forall_forall. intros i Hi. apply in_map_iff in Hi.
      destruct Hi as (row & <- & _). cbn [strategy_parameters]. apply Hrandn.
    + intro Hws. specialize (Hs Hws).
      rewrite Forall_forall in *. intros i Hi. apply in_map_iff in Hi.
      destruct Hi as (row & <- & Hrow). cbn [genotype].
      assert (Hl : In (length row) (map (@length Q) (clip_rows (bounds self) rows)))
        by (apply in_map; exact Hrow).
      rewrite (proj2 (clip_rows_length _ _)) in Hl.
      apply in_map_iff in Hl. destruct Hl as (row0 & <- & Hrow0).
      destruct (Hs row0 Hrow0) as (r0 & ->). apply Hnormal.
Qed.

Lemma demo_env_well_sized : well_sized Demo.env.
Proof. split; intros; cbn; apply repeat_length. Qed.

Lemma boxed_sampling_can_initialize : can_initialize Edge.boxed_sampling.
Proof.
  split; [reflexivity|]. split; [intros _; cbn; lia|].
  intros _ _. split; [cbn; discriminate|cbn; lia].
Qed.

(** Three candidates are sampled for a population size of 3, each with two
    components and two strategy parameters. *)
Lemma initial_population_shape_example :
  exists population w',
    _init_population Demo.env Edge.boxed_sampling (started Demo.env 0%nat) =
      (Ok population, w') /\
    length population = 3%nat /\
    Forall (fun i => length (strategy_parameters i) = 2%nat) population /\
    Forall (fun i => length (genotype i) = 2%nat) population.
Proof.
  destruct (initial_population_shape Demo.env Edge.boxed_sampling
              (started Demo.env 0%nat) boxed_sampling_can_initialize)
    as (population & w' & Hinit & Hlen & _ & Hsized).
  destruct (Hsized demo_env_well_sized) as [Hsp Hg].
  exists population, w'. split; [exact Hinit|]. split; [exact Hlen|].
  split; [exact Hsp|]. apply Hg. reflexivity.
Defined.

(** X2: when box bounds [(lo, hi)] with [lo <= hi] are configured and the
    preconditions of [_init_population] hold, every component of every
    initial genotype, warm-started or sampled, lies within [[lo, hi]]. *)
Theorem initial_genotypes_within_bounds (E : Env) (self : EvoPy) (w : World E)
    (lo hi : Q) :
  can_initialize self ->
  bounds self = Some (lo, hi) ->
  (lo <= hi)%Q ->
  exists population w',
    _init_population E self w = (Ok population, w') /\
    Forall (fun i => inside lo hi (genotype i)) population.
Proof.
  intros Hcan Hb Hle.
  destruct (init_population_value E self w Hcan) as (rows & w' & Hinit & _).
  eexists. exists w'. split; [exact Hinit|].
  rewrite Forall_forall. intros i Hi. apply in_map_iff in Hi.
  destruct Hi as (row & <- & Hrow). cbn [genotype].
  rewrite Hb in Hrow. cbn [clip_rows] in Hrow.
  apply in_map_iff in Hrow. destruct Hrow as (row0 & <- & _).
  unfold inside. rewrite Forall_forall. intros x Hx.
  apply in_map_iff in Hx. destruct Hx as (x0 & <- & _).
  apply np_clip_bounded. exact Hle.
Qed.

(** The samples [[1; 1]], [[2; 2]] and [[3; 3]] of [Demo.env] are kept in
    the box [[0, 2]]: the third one becomes [[2; 2]]. *)
Lemma initial_genotypes_within_bounds_example :
  exists population w',
    _init_population Demo.env Edge.boxed_sampling (started Demo.env 0%nat) =
      (Ok population, w') /\
    map genotype population = [[1%Q; 1%Q]; [2%Q; 2%Q]; [2%Q; 2%Q]] /\
    Forall (fun i => inside 0 2 (genotype i)) population.
Proof.
  assert (Hle : (0 <= 2)%Q) by discriminate.
  destruct (initial_genotypes_within_bounds Demo.env Edge.boxed_sampling
              (started Demo.env 0%nat) 0%Q 2%Q boxed_sampling_can_initialize
              eq_refl Hle) as (population & w' & Hinit & Hin).
  exists population, w'. split; [exact Hinit|]. split; [|exact Hin].
  vm_compute in Hinit. injection Hinit as <- _. reflexivity.
Defined.

(** ** Runs that end before or in the first generation *)

Section Endings.

Variable E : Env.
Variable self : EvoPy.

(** [_init_population] at the start of a run leaves the counters at 0 and
    the records empty. *)
Lemma init_started_records (r : Rng E) :
  history (snd (_init_population E self (started E r))) = [] /\
  reported (snd (_init_population E self (started E r))) = [] /\
  evaluations (snd (_init_population E self (started E r))) = 0 /\
  fitness_calls (snd (_init_population E self (started E r))) = 0%nat.
Proof. exact (init_population_records E self (started E r)). Qed.

Lemma range_length (n : Z) : length (range n) = Z.to_nat n.
Proof. unfold range. rewrite length_map, length_seq. reflexivity. Qed.

Lemma ranking_nil (reverse : bool) (l : list Individual) :
  ranking E reverse l = [] -> l = [].
Proof.
  intro H. apply (f_equal (@length _)) in H. rewrite ranking_length in H.
  destruct l; [reflexivity|discriminate].
Qed.

Lemma ranking_head_first (reverse : bool) (l : list Individual)
    (best : Individual) (rest : list Individual) :
  all_real E l ->
  ranking E reverse l = best :: rest ->
  Forall (ranks_before reverse best) rest.
Proof.
  intros Hreal H. pose proof (ranking_sorted E reverse l Hreal) as Hs.
  rewrite H in Hs. inversion Hs; assumption.
Qed.

(** A non-empty initial population has a best candidate. *)
Lemma initial_population_nonempty_start (r : Rng E) :
  can_initialize self ->
  (1 <= initial_size self)%nat ->
  exists population w1 best rest,
    _init_population E self (started E r) = (Ok population, w1) /\
    ranking E (maximize self) population = best :: rest /\
    length population = initial_size self.
Proof.
  intros Hcan Hsize.
  destruct (init_population_value E self (started E r) Hcan)
    as (rows & w1 & Hinit & Hlen & _).
  match type of Hinit with
  | _ = (Ok ?p, _) => set (population := p) in *
  end.
  assert (Hpl : length population = initial_size self).
  { unfold population. rewrite length_map.
    destruct (bounds self) as [[lo hi]|]; cbn [clip_rows];
      rewrite ?length_map; exact Hlen. }
  destruct (ranking E (maximize self) population) as [|best rest] eqn:Hrank.
  - apply ranking_nil in Hrank. rewrite Hrank in Hpl. cbn in Hpl. lia.
  - exists population, w1, best, rest. repeat split; assumption.
Qed.

End Endings.

(** X3: when the initial population is empty (a population size of 0 or
    less without warm start, or an empty warm start), the run raises
    [IndexError] at [sorted(population)[0]]: the fitness function has not
    been called, no generation has run and nothing has been reported. *)
Theorem empty_initial_population_raises (E : Env) (self : EvoPy) (r : Rng E) :
  individual_length self <> 0 ->
  can_initialize self ->
  initial_size self = 0%nat ->
  fst (run E self (fresh E r)) = Raise IndexError /\
  history (snd (run E self (fresh E r))) = [] /\
  reported (snd (run E self (fresh E r))) = [] /\
  evaluations (snd (run E self (fresh E r))) = 0 /\
  fitness_calls (snd (run E self (fresh E r))) = 0%nat.
Proof.
  intros HL Hcan Hsize.
  rewrite (run_unfold E self r HL).
  destruct (init_population_value E self (started E r) Hcan)
    as (rows & w1 & Hinit & Hlen & _).
  pose proof (init_started_records E self r) as (Hh & Hr & He & Hf).
  rewrite Hinit in *. cbn [snd] in Hh, Hr, He, Hf.
  rewrite Hsize in Hlen. destruct rows as [|row rows]; [|discriminate].
  assert (Hclip : clip_rows (bounds self) [] = []).
  { unfold clip_rows. destruct (bounds self) as [[lo hi]|]; reflexivity. }
  rewrite Hclip. cbn [map ranking sorted_keyed real_keys sort_keyed fold_right length].
  unfold add_fitness_calls. cbn [fst snd history reported evaluations fitness_calls].
  rewrite Hh, Hr, He, Hf. repeat split.
Qed.

Lemma empty_initial_population_raises_example :
  population_size Edge.empty_population = 0 /\
  fst (run Demo.env Edge.empty_population (fresh Demo.env 0%nat)) = Raise IndexError /\
  fitness_calls (Demo.final Edge.empty_population) = 0%nat.
Proof.
  assert (HL : individual_length Edge.empty_population <> 0) by (cbn; lia).
  assert (Hcan : can_initialize Edge.empty_population).
  { split; [reflexivity|]. split; [discriminate|]. intros _ H. cbn in H. lia. }
  destruct (empty_initial_population_raises Demo.env Edge.empty_population 0%nat
              HL Hcan eq_refl) as (Hres & _ & _ & _ & Hcalls).
  split; [reflexivity|]. split; [exact Hres|exact Hcalls].
Defined.

(** X4: with a generation count of 0 or less and a non-empty initial
    population the loop is not entered: the run returns the genotype of
    the first initial candidate in sorted order, which ranks before every
    other initial candidate when the fitness function returns NaN for none
    of them; every initial candidate has been evaluated once, the
    evaluation counter is still 0 and nothing has been reported. *)
Theorem no_generations_returns_initial_best (E : Env) (self : EvoPy) (r : Rng E) :
  individual_length self <> 0 ->
  can_initialize self ->
  (1 <= initial_size self)%nat ->
  generations self <= 0 ->
  exists population w1 best rest,
    _init_population E self (started E r) = (Ok population, w1) /\
    ranking E (maximize self) population = best :: rest /\
    (all_real E population -> Forall (ranks_before (maximize self) best) rest) /\
    fst (run E self (fresh E r)) = Ok (Some (genotype best)) /\
    history (snd (run E self (fresh E r))) = [] /\
    reported (snd (run E self (fresh E r))) = [] /\
    evaluations (snd (run E self (fresh E r))) = 0 /\
    fitness_calls (snd (run E self (fresh E r))) = initial_size self.
Proof.
  intros HL Hcan Hsize HG.
  destruct (initial_population_nonempty_start E self r Hcan Hsize)
    as (population & w1 & best & rest & Hinit & Hrank & Hlen).
  pose proof (init_started_records E self r) as (Hh & Hr & He & Hf).
  rewrite Hinit in Hh, Hr, He, Hf. cbn [snd] in Hh, Hr, He, Hf.
  exists population, w1, best, rest.
  split; [exact Hinit|]. split; [exact Hrank|].
  split; [intro Hreal; eapply ranking_head_first; [exact Hreal|exact Hrank]|].
  rewrite (run_unfold E self r HL), Hinit, Hrank.
  assert (Hrange : range (generations self) = []).
  { unfold range. replace (Z.to_nat (generations self)) with 0%nat by lia.
    reflexivity. }
  rewrite Hrange. cbn [loop]. unfold ret, add_fitness_calls.
  cbn [fst snd history reported evaluations fitness_calls].
  rewrite Hh, Hr, He, Hf, Hlen. repeat split.
Qed.

(** Of the warm-start candidates [[3]], [[1]] and [[2]] the run without
    generations returns [[1]], after three evaluations that are not
    counted. *)
Lemma no_generations_returns_initial_best_example :
  generations Edge.no_generations = 0 /\
  fst (run Demo.env Edge.no_generations (fresh Demo.env 0%nat)) = Ok (Some [1%Q]) /\
  evaluations (Demo.final Edge.no_generations) = 0 /\
  fitness_calls (Demo.final Edge.no_generations) = 3%nat.
Proof.
  assert (HL : individual_length Edge.no_generations <> 0) by (cbn; lia).
  assert (Hcan : can_initialize Edge.no_generations).
  { split; [reflexivity|]. split; discriminate. }
  assert (Hsize : (1 <= initial_size Edge.no_generations)%nat) by (cbn; lia).
  assert (HG : generations Edge.no_generations <= 0) by (cbn; lia).
  destruct (no_generations_returns_initial_best Demo.env Edge.no_generations 0%nat
              HL Hcan Hsize HG)
    as (population & w1 & best & rest & Hinit & Hrank & _ & Hres & _ & _ & He & Hf).
  split; [reflexivity|]. split; [|split; [exact He|exact Hf]].
  rewrite Hres. vm_compute in Hinit. injection Hinit as <- _.
  vm_compute in Hrank. injection Hrank as <- _. reflexivity.
Defined.

(** X6: with no child per parent ([num_children] of 0 or less) and no
    survivor (a maximum age of 0 or less, as by default), the first
    generation has nothing to select from: the run raises [IndexError] at
    [population[0]], having evaluated the initial population only, with
    the evaluation counter at 0 and nothing reported. *)
Theorem childless_run_raises (E : Env) (self : EvoPy) (r : Rng E) :
  individual_length self <> 0 ->
  can_initialize self ->
  (1 <= initial_size self)%nat ->
  num_children self <= 0 ->
  max_age self <= 0 ->
  1 <= generations self ->
  fst (run E self (fresh E r)) = Raise IndexError /\
  history (snd (run E self (fresh E r))) = [] /\
  reported (snd (run E self (fresh E r))) = [] /\
  evaluations (snd (run E self (fresh E r))) = 0 /\
  fitness_calls (snd (run E self (fresh E r))) = initial_size self.
Proof.
  intros HL Hcan Hsize Hc Hage HG.
  destruct (initial_population_nonempty_start E self r Hcan Hsize)
    as (population & w1 & best & rest & Hinit & Hrank & Hlen).
  pose proof (init_started_records E self r) as (Hh & Hr & He & Hf).
  rewrite Hinit in Hh, Hr, He, Hf. cbn [snd] in Hh, Hr, He, Hf.
  rewrite (run_unfold E self r HL), Hinit, Hrank.
  destruct (range (generations self)) as [|g gens] eqn:Hrange.
  { apply (f_equal (@length _)) in Hrange. rewrite range_length in Hrange.
    cbn in Hrange. lia. }
  cbn [loop]. unfold bind.
  assert (Hnone : forall pop (rng : Rng E),
            fst (reproduce_rounds E (Z.to_nat (num_children self)) pop rng)
            ++ _age_population self pop = []).
  { intros pop rng. replace (Z.to_nat (num_children self)) with 0%nat by lia.
    cbn [reproduce_rounds fst app]. unfold _age_population.
    replace (filter (fun i => Z.of_nat (age i) <? max_age self) pop) with
      (@nil Individual); [reflexivity|].
    induction pop as [|p pop IH]; [reflexivity|].
    cbn [filter]. destruct (Z.of_nat (age p) <? max_age self) eqn:Hp;
      [apply Z.ltb_lt in Hp; lia|exact IH]. }
  destruct (generation_body E self (now E 0) g
              (map snd (map (evaluate E) population))
              (snd (add_fitness_calls E (length population) w1)))
    as [[[[pop1 best1] stop]|e] w2] eqn:Hbody.
  - exfalso. apply generation_body_ok in Hbody.
    destruct Hbody as (s & Hp & _).
    pose proof (pass_best Hp) as Hb.
    rewrite (pass_population Hp), (pass_ranked Hp), (pass_survivors Hp) in Hb.
    destruct (pass_children Hp) as [rng Hch]. rewrite Hch, Hnone in Hb.
    cbn [ranking map sort_keyed fold_right] in Hb.
    unfold slice_to in Hb. rewrite !firstn_nil in Hb.
    destruct (population_size self <? 0); discriminate.
  - pose proof (generation_body_raise E self _ _ _ _ _ _ Hbody) as [Hh2 Hr2].
    apply generation_body_raise_empty in Hbody.
    destruct Hbody as (-> & _ & He2 & Hf2).
    rewrite Hnone in He2, Hf2. cbn [length] in He2, Hf2.
    unfold add_fitness_calls in *.
    cbn [fst snd history reported evaluations fitness_calls] in *.
    rewrite Hh2, Hr2, He2, Hf2, Hh, Hr, He, Hf, Hlen.
    repeat split; lia.
Qed.

Lemma childless_run_raises_example :
  num_children Edge.childless = 0 /\
  max_age Edge.childless = 0 /\
  fst (run Demo.env Edge.childless (fresh Demo.env 0%nat)) = Raise IndexError /\
  fitness_calls (Demo.final Edge.childless) = 1%nat.
Proof.
  assert (HL : individual_length Edge.childless <> 0) by (cbn; lia).
  assert (Hcan : can_initialize Edge.childless).
  { split; [reflexivity|]. split; discriminate. }
  assert (Hsize : (1 <= initial_size Edge.childless)%nat) by (cbn; lia).
  assert (Hc : num_children Edge.childless <= 0) by (cbn; lia).
  assert (Hage : max_age Edge.childless <= 0) by (cbn; lia).
  assert (HG : 1 <= generations Edge.childless) by (cbn; lia).
  destruct (childless_run_raises Demo.env Edge.childless 0%nat
              HL Hcan Hsize Hc Hage HG) as (Hres & _ & _ & _ & Hf).
  split; [reflexivity|]. split; [reflexivity|]. split; [exact Hres|exact Hf].
Defined.

(** ** How a run ends *)

Section Termination.

Variable E : Env.
Variable self : EvoPy.

(** A snapshot that decided to stop closes the history. *)
Lemma linked_stop_position (hs : list Snapshot) :
  forall gens pop count calls n s,
  linked E self gens pop count calls hs ->
  nth_error hs n = Some s -> gen_should_stop s = true -> length hs = S n.
Proof.
  induction hs as [|s0 hs IH]; intros gens pop count calls n s Hl Hn Hs;
    [destruct n; discriminate|].
  destruct gens as [|g gens]; [destruct Hl|].
  destruct Hl as (_ & Hstop & Hrest). destruct n as [|n].
  - cbn in Hn. injection Hn as ->. rewrite (Hstop Hs). reflexivity.
  - cbn in Hn. cbn [length]. f_equal. eapply IH; eassumption.
Qed.

Lemma linked_earlier_continue (earlier : list Snapshot) :
  forall gens pop count calls s,
  linked E self gens pop count calls (earlier ++ [s]) ->
  Forall (fun s' => gen_should_stop s' = false) earlier.
Proof.
  induction earlier as [|s0 earlier IH]; intros gens pop count calls s Hl;
    [constructor|].
  destruct gens as [|g gens]; [destruct Hl|].
  cbn [app] in Hl. destruct Hl as (_ & Hstop & Hrest).
  constructor.
  - destruct (gen_should_stop s0); [|reflexivity].
    specialize (Hstop eq_refl). destruct earlier; discriminate.
  - eapply IH; exact Hrest.
Qed.

(** The snapshot of the final configured generation decides to stop. *)
Lemma full_history_ends_terminal (hs : list Snapshot) (pop : list Individual)
    (count : Z) (calls : nat) :
  linked E self (range (generations self)) pop count calls hs ->
  length hs = Z.to_nat (generations self) ->
  1 <= generations self ->
  exists s, In s hs /\ gen_should_stop s = true.
Proof.
  intros Hl Hlen HG.
  destruct (nth_error hs (Z.to_nat (generations self) - 1)) as [s|] eqn:Hn.
  - exists s. split; [eapply nth_error_In; exact Hn|].
    pose proof (linked_index E self _ _ _ _ _ _ _ Hl Hn) as Hidx.
    apply range_nth in Hidx.
    destruct (linked_pass E self _ _ _ _ _ _ Hl (nth_error_In _ _ Hn))
      as (g & p & c & k & Hp).
    apply (pass_stop Hp). right; right; right. unfold final_generation. lia.
  - apply nth_error_None in Hn. lia.
Qed.

(** The history of a run has at most one snapshot per configured
    generation; a run that returns a genotype either has a snapshot that
    decided to stop or has gone through all generations. *)
Lemma run_outcome (r : Rng E) :
  (length (history (snd (run E self (fresh E r)))) <=
   Z.to_nat (generations self))%nat /\
  (forall res, fst (run E self (fresh E r)) = Ok res ->
     individual_length self <> 0 ->
     (exists s, In s (history (snd (run E self (fresh E r)))) /\
                gen_should_stop s = true) \/
     length (history (snd (run E self (fresh E r)))) =
       Z.to_nat (generations self)).
Proof.
  destruct (Z.eq_dec (individual_length self) 0) as [H0|HL].
  { rewrite (run_zero_length E self (fresh E r) H0). cbn [snd fresh history length].
    split; [lia|]. intros res _ Hc. contradiction. }
  rewrite (run_unfold E self r HL).
  pose proof (init_started_records E self r) as (Hh & _).
  destruct (_init_population E self (started E r)) as [[pop|e0] w1].
  - cbn [snd] in Hh.
    destruct (ranking E (maximize self) pop) as [|best rest].
    + unfold add_fitness_calls. cbn [fst snd history]. rewrite Hh. cbn [length].
      split; [lia|]. intros res Hc. discriminate.
    + destruct (loop E self (now E 0) (range (generations self))
                  (map snd (map (evaluate E) pop)) best
                  (snd (add_fitness_calls E (length pop) w1)))
        as [[b|e1] w3] eqn:Hloop;
        apply loop_outcome in Hloop; destruct Hloop as (hs & Hhs & Hlen & Hr);
        unfold add_fitness_calls in Hhs; cbn [snd history] in Hhs;
        rewrite Hh in Hhs; cbn [app] in Hhs; rewrite range_length in Hlen, Hr;
        cbn [fst snd]; rewrite Hhs.
      * split; [exact Hlen|]. intros res _ _. exact Hr.
      * split; [exact Hlen|]. intros res Hc. discriminate.
  - cbn [fst snd] in *. rewrite Hh. cbn [length].
    split; [lia|]. intros res Hc. discriminate.
Qed.

(** With room for a candidate and a child per parent, a run from a
    non-empty initial population returns. *)
Lemma run_returns (r : Rng E) :
  individual_length self <> 0 ->
  can_initialize self ->
  (1 <= initial_size self)%nat ->
  1 <= population_size self ->
  1 <= num_children self ->
  exists g, fst (run E self (fresh E r)) = Ok (Some g).
Proof.
  intros HL Hcan Hsize HP Hc.
  destruct (initial_population_nonempty_start E self r Hcan Hsize)
    as (population & w1 & best & rest & Hinit & Hrank & Hlen).
  rewrite (run_unfold E self r HL), Hinit, Hrank.
  assert (Hne : map snd (map (evaluate E) population) <> []).
  { intro Hnil. apply (f_equal (@length _)) in Hnil.
    rewrite !length_map in Hnil. cbn in Hnil. lia. }
  destruct (loop_returns E self (now E 0) (range (generations self)) HP Hc
              (map snd (map (evaluate E) population)) best
              (snd (add_fitness_calls E (length population) w1)) Hne)
    as (b & w3 & Hloop).
  rewrite Hloop. exists (genotype b). reflexivity.
Qed.

(** A run of at least one generation that returns has a last snapshot,
    which decided to stop, and no earlier snapshot did. *)
Lemma returned_run_ends_terminal (r : Rng E) (res : option (list Q)) :
  individual_length self <> 0 ->
  1 <= generations self ->
  fst (run E self (fresh E r)) = Ok res ->
  exists earlier s,
    history (snd (run E self (fresh E r))) = earlier ++ [s] /\
    Forall (fun s' => gen_should_stop s' = false) earlier /\
    gen_should_stop s = true /\
    res = Some (genotype (gen_best s)).
Proof.
  intros HL HG Hres.
  destruct (run_history E self r) as (pop0 & Hl & _ & _ & Hstop).
  destruct (run_outcome r) as [_ Hout].
  assert (Hterm : exists s, In s (history (snd (run E self (fresh E r)))) /\
                            gen_should_stop s = true).
  { destruct (Hout res Hres HL) as [Hs|Hfull]; [exact Hs|].
    eapply full_history_ends_terminal; eassumption. }
  destruct Hterm as (s & Hin & Hs).
  destruct (linked_stop_last E self _ _ _ _ _ _ Hl Hin Hs) as [earlier Hlast].
  exists earlier, s. split; [exact Hlast|]. split.
  - rewrite Hlast in Hl. eapply linked_earlier_continue; exact Hl.
  - split; [exact Hs|]. specialize (Hstop s Hin Hs). congruence.
Qed.

End Termination.

(** X7: with a non-zero genotype length, a non-empty initial population,
    a population size and a number of children of at least 1 and at least
    one generation, the run returns a genotype: the one of the best
    candidate of its last generation.  That generation is the only one
    that decided to stop, and the run has gone through at most
    [generations] generations. *)
Theorem run_returns_best_of_last_generation (E : Env) (self : EvoPy) (r : Rng E) :
  individual_length self <> 0 ->
  can_initialize self ->
  (1 <= initial_size self)%nat ->
  1 <= population_size self ->
  1 <= num_children self ->
  1 <= generations self ->
  exists earlier s,
    history (snd (run E self (fresh E r))) = earlier ++ [s] /\
    Forall (fun s' => gen_should_stop s' = false) earlier /\
    gen_should_stop s = true /\
    fst (run E self (fresh E r)) = Ok (Some (genotype (gen_best s))) /\
    (length (history (snd (run E self (fresh E r)))) <=
     Z.to_nat (generations self))%nat.
Proof.
  intros HL Hcan Hsize HP Hc HG.
  destruct (run_returns E self r HL Hcan Hsize HP Hc) as [g Hres].
  destruct (returned_run_ends_terminal E self r (Some g) HL HG Hres)
    as (earlier & s & Hlast & Hearlier & Hs & Hg).
  exists earlier, s. split; [exact Hlast|]. split; [exact Hearlier|].
  split; [exact Hs|]. split; [rewrite Hres, Hg; reflexivity|].
  apply (run_outcome E self r).
Qed.

Lemma three_generations_can_initialize : can_initialize Edge.three_generations.
Proof.
  split; [reflexivity|]. split; [discriminate|].
  intros _ _. split; [cbn; discriminate|cbn; lia].
Qed.

(** The run of three generations returns [[2]], the best genotype of its
    third generation, although the first generation had the better [[1]]. *)
Lemma run_returns_best_of_last_generation_example :
  fst (run Demo.env Edge.three_generations (fresh Demo.env 0%nat)) = Ok (Some [2%Q]) /\
  map (fun s => (gen_should_stop s, genotype (gen_best s)))
      (history (Demo.final Edge.three_generations)) =
    [(false, [1%Q]); (false, [2%Q]); (true, [2%Q])] /\
  exists earlier s,
    history (Demo.final Edge.three_generations) = earlier ++ [s] /\
    fst (run Demo.env Edge.three_generations (fresh Demo.env 0%nat)) =
      Ok (Some (genotype (gen_best s))).
Proof.
  split; [vm_compute; reflexivity|]. split; [vm_compute; reflexivity|].
  assert (HL : individual_length Edge.three_generations <> 0) by (cbn; lia).
  assert (Hsize : (1 <= initial_size Edge.three_generations)%nat) by (cbn; lia).
  assert (HP : 1 <= population_size Edge.three_generations) by (cbn; lia).
  assert (Hc : 1 <= num_children Edge.three_generations) by (cbn; lia).
  assert (HG : 1 <= generations Edge.three_generations) by (cbn; lia).
  destruct (run_returns_best_of_last_generation Demo.env Edge.three_generations
              0%nat HL three_generations_can_initialize Hsize HP Hc HG)
    as (earlier & s & Hlast & _ & _ & Hres & _).
  exists earlier, s. split; [exact Hlast|exact Hres].
Defined.

(** X8: for a non-zero genotype length and at least one generation, the
    run returns normally exactly when one of its generations decided to
    stop (and so was reported as terminal); a run that raises has marked
    no generation as terminal. *)
Theorem run_returns_iff_terminal_generation (E : Env) (self : EvoPy) (r : Rng E) :
  individual_length self <> 0 ->
  1 <= generations self ->
  (exists res, fst (run E self (fresh E r)) = Ok res) <->
  (exists s, In s (history (snd (run E self (fresh E r)))) /\
             gen_should_stop s = true).
Proof.
  intros HL HG. split.
  - intros [res Hres].
    destruct (returned_run_ends_terminal E self r res HL HG Hres)
      as (earlier & s & Hlast & _ & Hs & _).
    exists s. split; [|exact Hs].
    rewrite Hlast. apply in_or_app. right. left. reflexivity.
  - intros (s & Hin & Hs).
    destruct (run_history E self r) as (_ & _ & _ & _ & Hstop).
    eexists. apply (Hstop s Hin Hs).
Qed.

Lemma run_returns_iff_terminal_generation_example :
  (exists res, fst (run Demo.env Demo.budgeted (fresh Demo.env 0%nat)) = Ok res) /\
  (exists s, In s (history (Demo.final Demo.budgeted)) /\ gen_should_stop s = true) /\
  map gen_should_stop (history (Demo.final Demo.budgeted)) = [false; true].
Proof.
  assert (HL : individual_length Demo.budgeted <> 0) by (cbn; lia).
  assert (HG : 1 <= generations Demo.budgeted) by (cbn; lia).
  assert (Hres : exists res,
            fst (run Demo.env Demo.budgeted (fresh Demo.env 0%nat)) = Ok res).
  { eexists. vm_compute. reflexivity. }
  split; [exact Hres|]. split; [|vm_compute; reflexivity].
  apply (proj1 (run_returns_iff_terminal_generation Demo.env Demo.budgeted 0%nat
                  HL HG) Hres).
Defined.

(** With a reporter there is one report per snapshot. *)
Lemma delivered_length (E : Env) (self : EvoPy) (hs : list Snapshot) :
  reporter self = true ->
  forall gens pop count calls,
  linked E self gens pop count calls hs -> length (delivered hs) = length hs.
Proof.
  intro Hreporter.
  induction hs as [|s hs IH]; intros gens pop count calls Hl; [reflexivity|].
  destruct gens as [|gi gens]; [destruct Hl|].
  destruct Hl as (Hp & _ & Hrest).
  pose proof (pass_report Hp) as Hr. rewrite Hreporter in Hr.
  destruct Hr as (rp & Hrp & _).
  rewrite delivered_cons, length_app. unfold delivered at 1. cbn [flat_map].
  rewrite Hrp. cbn [app length Nat.add]. f_equal. eapply IH; exact Hrest.
Qed.

(** X9: when no early-stop condition is configured (no time budget, no
    target fitness, no evaluation budget) and the run can proceed (a
    non-empty initial population, a population size and a number of
    children of at least 1), the run goes through exactly [generations]
    generations, none for a count of 0 or less, and with a reporter it
    delivers exactly one report per generation. *)
Theorem without_early_stop_runs_all_generations (E : Env) (self : EvoPy)
    (r : Rng E) :
  individual_length self <> 0 ->
  can_initialize self ->
  (1 <= initial_size self)%nat ->
  1 <= population_size self ->
  1 <= num_children self ->
  no_early_stop self ->
  length (history (snd (run E self (fresh E r)))) = Z.to_nat (generations self) /\
  (reporter self = true ->
   length (reported (snd (run E self (fresh E r)))) = Z.to_nat (generations self)).
Proof.
  intros HL Hcan Hsize HP Hc (Ht & Hg & Hm).
  destruct (run_returns E self r HL Hcan Hsize HP Hc) as [g Hres].
  destruct (run_history E self r) as (pop0 & Hl & Hrep & _).
  destruct (run_outcome E self r) as [Hle Hout].
  assert (Hlen : length (history (snd (run E self (fresh E r)))) =
                 Z.to_nat (generations self)).
  { destruct (Hout (Some g) Hres HL) as [(s & Hin & Hs)|Hfull]; [|exact Hfull].
    destruct (In_nth_error _ _ Hin) as [n Hn].
    pose proof (linked_stop_position E self _ _ _ _ _ _ _ Hl Hn Hs) as Hpos.
    pose proof (linked_index E self _ _ _ _ _ _ _ Hl Hn) as Hidx.
    apply range_nth in Hidx.
    destruct (linked_pass E self _ _ _ _ _ _ Hl Hin) as (gi & p & c & k & Hp).
    apply (pass_stop Hp) in Hs.
    destruct Hs as [(l & e & Hc1 & _)|[(t & f & Hc2 & _)|[(l & Hc3 & _)|Hfinal]]];
      try congruence.
    unfold final_generation in Hfinal. lia. }
  split; [exact Hlen|].
  intro Hreporter. rewrite Hrep, <- Hlen.
  eapply delivered_length; eassumption.
Qed.

(** Without early stopping the run of [Edge.three_generations] has three
    generations and three reports. *)
Lemma without_early_stop_runs_all_generations_example :
  generations Edge.three_generations = 3 /\
  length (history (Demo.final Edge.three_generations)) = 3%nat /\
  length (reported (Demo.final Edge.three_generations)) = 3%nat.
Proof.
  assert (HL : individual_length Edge.three_generations <> 0) by (cbn; lia).
  assert (Hsize : (1 <= initial_size Edge.three_generations)%nat) by (cbn; lia).
  assert (HP : 1 <= population_size Edge.three_generations) by (cbn; lia).
  assert (Hc : 1 <= num_children Edge.three_generations) by (cbn; lia).
  assert (Hno : no_early_stop Edge.three_generations) by (repeat split).
  destruct (without_early_stop_runs_all_generations Demo.env Edge.three_generations
              0%nat HL three_generations_can_initialize Hsize HP Hc Hno)
    as [Hh Hr].
  split; [reflexivity|]. split; [exact Hh|]. apply Hr. reflexivity.
Defined.

(** ** Sizes, selection and ages within a generation *)

Section Generation.

Variable E : Env.
Variable self : EvoPy.

Lemma age_population_shorter (pop : list Individual) :
  (length (_age_population self pop) <= length pop)%nat.
Proof. unfold _age_population. rewrite length_map. apply filter_length_le. Qed.

Lemma age_population_none (pop : list Individual) :
  max_age self <= 0 -> _age_population self pop = [].
Proof.
  intro H. unfold _age_population.
  induction pop as [|p pop IH]; [reflexivity|].
  cbn [filter]. destruct (Z.of_nat (age p) <? max_age self) eqn:Hp;
    [apply Z.ltb_lt in Hp; lia|exact IH].
Qed.

Lemma slice_to_size {A : Type} (k : Z) (l : list A) :
  0 <= k -> length (slice_to k l) = Nat.min (Z.to_nat k) (length l).
Proof.
  intro Hk. unfold slice_to.
  destruct (k <? 0) eqn:Hneg; [apply Z.ltb_lt in Hneg; lia|].
  apply length_firstn.
Qed.

Lemma slice_to_prefix {A : Type} (k : Z) (l : list A) :
  exists dropped, l = slice_to k l ++ dropped.
Proof.
  destruct (slice_to_firstn k l) as [n ->]. exists (skipn n l).
  symmetry. apply firstn_skipn.
Qed.

Lemma StronglySorted_app_order {A : Type} (R : A -> A -> Prop) (l1 l2 : list A) :
  StronglySorted R (l1 ++ l2) ->
  forall a b, In a l1 -> In b l2 -> R a b.
Proof.
  induction l1 as [|x l1 IH]; intros Hs a b Ha Hb; [destruct Ha|].
  cbn [app] in Hs. inversion Hs as [|? ? Hs' Hall]; subst.
  destruct Ha as [<-|Ha].
  - rewrite Forall_forall in Hall. apply Hall. apply in_or_app. right; exact Hb.
  - apply IH; assumption.
Qed.

Lemma reproduce_each_children (pop : list Individual) (r : Rng E) :
  Forall (fun c => exists p r0, c = fst (reproduce E p r0))
         (fst (reproduce_each E pop r)).
Proof.
  revert r. induction pop as [|p pop IH]; intro r; [constructor|].
  cbn [reproduce_each].
  destruct (reproduce E p r) as [child r1] eqn:Hc.
  specialize (IH r1). destruct (reproduce_each E pop r1) as [others r2].
  cbn [fst] in *. constructor; [|exact IH].
  exists p, r. rewrite Hc. reflexivity.
Qed.

Lemma reproduce_rounds_children (rounds : nat) (pop : list Individual) (r : Rng E) :
  Forall (fun c => exists p r0, c = fst (reproduce E p r0))
         (fst (reproduce_rounds E rounds pop r)).
Proof.
  revert r. induction rounds as [|k IH]; intro r; [constructor|].
  cbn [reproduce_rounds].
  pose proof (reproduce_each_children pop r) as H1.
  destruct (reproduce_each E pop r) as [first r1].
  specialize (IH r1). destruct (reproduce_rounds E k pop r1) as [others r2].
  cbn [fst] in *. apply Forall_app. split; assumption.
Qed.

End Generation.

(** X10: in every generation of a run each parent produces
    [num_children] children (none for a count of 0 or less), so there are
    [num_children] times as many children as parents; there are at most as
    many survivors as parents, and none when the maximum age is 0 or less;
    and for a non-negative population size the selected population has the
    size of the evaluated union, cut at the population size. *)
Theorem generation_sizes (E : Env) (self : EvoPy) (r : Rng E) (s : Snapshot) :
  In s (history (snd (run E self (fresh E r)))) ->
  length (gen_children s) =
    (Z.to_nat (num_children self) * length (gen_parents s))%nat /\
  (length (gen_survivors s) <= length (gen_parents s))%nat /\
  (max_age self <= 0 -> gen_survivors s = []) /\
  (0 <= population_size self ->
   length (gen_population s) =
     Nat.min (Z.to_nat (population_size self))
             (length (gen_children s) + length (gen_survivors s))).
Proof.
  intro Hin.
  destruct (run_history E self r) as (pop0 & Hl & _).
  destruct (linked_pass E self _ _ _ _ _ _ Hl Hin) as (g & p & c & k & Hp).
  split; [|split; [|split]].
  - destruct (pass_children Hp) as [rng ->].
    rewrite reproduce_rounds_length, (pass_parents Hp). reflexivity.
  - rewrite (pass_survivors Hp), (pass_parents Hp). apply age_population_shorter.
  - intro Hage. rewrite (pass_survivors Hp). apply age_population_none. exact Hage.
  - intro HP. rewrite (pass_population Hp), slice_to_size by exact HP.
    rewrite (pass_union_size E self Hp). reflexivity.
Qed.

(** In the second generation of [Edge.three_generations] two parents have
    four children, one parent survives, and two of the five candidates are
    selected. *)
Lemma generation_sizes_example :
  exists s,
    Demo.snapshot Edge.three_generations 1 = Some s /\
    length (gen_parents s) = 2%nat /\
    length (gen_children s) = 4%nat /\
    length (gen_survivors s) = 1%nat /\
    length (gen_population s) = 2%nat.
Proof.
  destruct (Demo.snapshot Edge.three_generations 1) as [s|] eqn:Hs;
    [|vm_compute in Hs; discriminate].
  destruct (generation_sizes Demo.env Edge.three_generations 0%nat s
              (nth_error_In _ 1 Hs)) as (Hc & _ & _ & Hp).
  assert (Hvals : length (gen_parents s) = 2%nat /\
                  length (gen_survivors s) = 1%nat).
  { vm_compute in Hs. injection Hs as <-. split; reflexivity. }
  destruct Hvals as [Hpar Hsur].
  exists s. split; [reflexivity|]. split; [exact Hpar|].
  assert (Hch : length (gen_children s) = 4%nat) by (rewrite Hc, Hpar; reflexivity).
  split; [exact Hch|]. split; [exact Hsur|].
  rewrite Hp, Hch, Hsur by (cbn; lia). reflexivity.
Defined.

(** X11: truncation keeps the best.  In every generation the ranked
    union is a rearrangement of the evaluated children and survivors, and
    it is the selected population followed by the dropped candidates.
    When the fitness function returns NaN for none of these candidates,
    every selected candidate ranks before every dropped one, and the best
    candidate of the generation is at least as good as every child and
    every survivor that was evaluated (its fitness is less than or equal
    to theirs when minimizing, greater than or equal when maximizing). *)
Theorem truncation_keeps_the_best (E : Env) (self : EvoPy) (r : Rng E)
    (s : Snapshot) :
  In s (history (snd (run E self (fresh E r)))) ->
  (exists dropped,
     gen_ranked s = gen_population s ++ dropped /\
     (all_real E (gen_children s ++ gen_survivors s) ->
      forall kept d, In kept (gen_population s) -> In d dropped ->
                     ranks_before (maximize self) kept d)) /\
  Permutation (gen_ranked s)
    (map (fun i => snd (evaluate E i)) (gen_children s ++ gen_survivors s)) /\
  (all_real E (gen_children s ++ gen_survivors s) ->
   forall c, In c (gen_children s ++ gen_survivors s) ->
     exists fb fc,
       fitness (gen_best s) = Some (Real fb) /\
       fitness_function E (genotype c) = Real fc /\
       if maximize self then (fc <= fb)%Q else (fb <= fc)%Q).
Proof.
  intro Hin.
  destruct (run_history E self r) as (pop0 & Hl & _).
  destruct (linked_pass E self _ _ _ _ _ _ Hl Hin) as (g & p & c & k & Hp).
  pose proof (ranking_sorted E (maximize self)
                (gen_children s ++ gen_survivors s)) as Hsorted.
  rewrite <- (pass_ranked Hp) in Hsorted.
  split; [|split].
  - destruct (slice_to_prefix (population_size self) (gen_ranked s))
      as [dropped Hd].
    rewrite <- (pass_population Hp) in Hd.
    exists dropped. split; [exact Hd|].
    intro Hreal. specialize (Hsorted Hreal).
    rewrite Hd in Hsorted. apply StronglySorted_app_order. exact Hsorted.
  - rewrite (pass_ranked Hp). apply ranking_perm.
  - intros Hreal cand Hc. specialize (Hsorted Hreal).
    destruct (pass_best_evaluated E self Hp) as (_ & Hhd & Hfb).
    assert (Hcr : In (set_fitness cand (fitness_function E (genotype cand)))
                     (gen_ranked s)).
    { rewrite (pass_ranked Hp). apply ranking_complete. exact Hc. }
    assert (Hfc : exists fc, fitness_function E (genotype cand) = Real fc).
    { unfold all_real in Hreal. rewrite Forall_forall in Hreal.
      specialize (Hreal _ Hc).
      destruct (fitness_function E (genotype cand)) as [fc|];
        [eauto|contradiction]. }
    destruct Hfc as [fc Hfc]. rewrite Hfc in Hcr.
    destruct (gen_ranked s) as [|x l]; [destruct Hcr|].
    cbn in Hhd. injection Hhd as ->.
    destruct Hcr as [Heq|Hrest].
    + exists fc, fc. split; [rewrite Heq; reflexivity|]. split; [exact Hfc|].
      destruct (maximize self); apply Qle_refl.
    + inversion Hsorted as [|? ? _ Hall]; subst.
      rewrite Forall_forall in Hall. specialize (Hall _ Hrest).
      destruct Hall as (a & b & Ha & Hb & Hord).
      cbn [fitness set_fitness] in Hb. injection Hb as <-.
      exists a, fc. split; [exact Ha|]. split; [exact Hfc|]. exact Hord.
Qed.

(** In the first generation of [Edge.three_generations] the six evaluated
    candidates have the fitness 1, 4, 4, 4, 9 and 9; the two selected ones
    have 1 and 4, and rank before the four dropped ones. *)
Lemma truncation_keeps_the_best_example :
  exists s,
    Demo.snapshot Edge.three_generations 0 = Some s /\
    map fitness (gen_ranked s) =
      [Some (Real 1); Some (Real 4); Some (Real 4); Some (Real 4);
       Some (Real 9); Some (Real 9)] /\
    map fitness (gen_population s) = [Some (Real 1); Some (Real 4)] /\
    exists dropped,
      gen_ranked s = gen_population s ++ dropped /\
      forall kept d, In kept (gen_population s) -> In d dropped ->
                     ranks_before (maximize Edge.three_generations) kept d.
Proof.
  destruct (Demo.snapshot Edge.three_generations 0) as [s|] eqn:Hs;
    [|vm_compute in Hs; discriminate].
  destruct (truncation_keeps_the_best Demo.env Edge.three_generations 0%nat s
              (nth_error_In _ 0 Hs)) as ((dropped & Hd & Hord) & _).
  exists s. split; [reflexivity|].
  assert (Hvals : map fitness (gen_ranked s) =
                    [Some (Real 1); Some (Real 4); Some (Real 4); Some (Real 4);
                     Some (Real 9); Some (Real 9)] /\
                  map fitness (gen_population s) = [Some (Real 1); Some (Real 4)]).
  { vm_compute in Hs. injection Hs as <-. split; reflexivity. }
  destruct Hvals as [Hr Hp].
  split; [exact Hr|]. split; [exact Hp|]. exists dropped. split; [exact Hd|].
  apply Hord. apply real_valued_all_real. intros g Hg. discriminate Hg.
Defined.

(** X12: when [reproduce] returns candidates of age 0, every candidate of
    every selected population has either the age 0 (as the children of that
    generation have) or an age of at least 1 and at most the maximum age (as
    its survivors have). *)
Theorem selected_candidates_age_bounded (E : Env) (self : EvoPy) (r : Rng E)
    (s : Snapshot) (i : Individual) :
  newborn_children E ->
  In s (history (snd (run E self (fresh E r)))) ->
  In i (gen_population s) ->
  age i = 0%nat \/ (1 <= Z.of_nat (age i) /\ Z.of_nat (age i) <= max_age self).
Proof.
  intros Hnew Hin Hi.
  destruct (run_history E self r) as (pop0 & Hl & _).
  destruct (linked_pass E self _ _ _ _ _ _ Hl Hin) as (g & p & c & k & Hp).
  rewrite (pass_population Hp) in Hi. apply slice_to_incl in Hi.
  rewrite (pass_ranked Hp) in Hi. apply ranking_evaluated in Hi.
  destruct Hi as (j & Hj & ->). cbn [age set_fitness].
  apply in_app_or in Hj. destruct Hj as [Hchild|Hsurv].
  - left. destruct (pass_children Hp) as [rng Hch]. rewrite Hch in Hchild.
    pose proof (reproduce_rounds_children E (Z.to_nat (num_children self)) p rng)
      as Hall.
    rewrite Forall_forall in Hall. destruct (Hall _ Hchild) as (q & r0 & ->).
    apply Hnew.
  - right. rewrite (pass_survivors Hp) in Hsurv. unfold _age_population in Hsurv.
    apply in_map_iff in Hsurv. destruct Hsurv as (q & <- & Hq).
    apply filter_In in Hq. destruct Hq as [_ Hage]. apply Z.ltb_lt in Hage.
    cbn [age set_age]. lia.
Qed.

Lemma demo_env_newborn : newborn_children Demo.env.
Proof. intros p r. reflexivity. Qed.

(** With the maximum age 1 the third generation of [Edge.three_generations]
    selects two survivors of age 1. *)
Lemma selected_candidates_age_bounded_example :
  exists s i,
    Demo.snapshot Edge.three_generations 2 = Some s /\
    hd_error (gen_population s) = Some i /\
    age i = 1%nat /\
    (age i = 0%nat \/
     (1 <= Z.of_nat (age i) /\ Z.of_nat (age i) <= max_age Edge.three_generations)).
Proof.
  destruct (Demo.snapshot Edge.three_generations 2) as [s|] eqn:Hs;
    [|vm_compute in Hs; discriminate].
  destruct (hd_error (gen_population s)) as [i|] eqn:Hi.
  - exists s, i. split; [reflexivity|]. split; [exact Hi|]. split.
    + vm_compute in Hs. injection Hs as <-. vm_compute in Hi.
      injection Hi as <-. reflexivity.
    + apply (selected_candidates_age_bounded Demo.env Edge.three_generations
               0%nat s i demo_env_newborn (nth_error_In _ 2 Hs)).
      destruct (gen_population s) as [|x l]; [discriminate|].
      cbn in Hi. injection Hi as ->. left; reflexivity.
  - exfalso. vm_compute in Hs. injection Hs as <-. vm_compute in Hi. discriminate.
Defined.

(** ** Reports *)

Section Reports.

Variable E : Env.
Variable self : EvoPy.

Lemma linked_evaluations_lower (hs : list Snapshot) :
  forall gens pop count calls s,
  linked E self gens pop count calls hs -> In s hs -> count <= gen_evaluations s.
Proof.
  induction hs as [|s0 hs IH]; intros gens pop count calls s Hl Hin; [destruct Hin|].
  destruct gens as [|g gens]; [destruct Hl|].
  destruct Hl as (Hp & _ & Hrest). pose proof (pass_evaluations Hp) as Hev.
  destruct Hin as [<-|Hin]; [lia|].
  specialize (IH _ _ _ _ _ Hrest Hin). lia.
Qed.

Lemma linked_evaluations_monotone (hs : list Snapshot) :
  forall gens pop count calls n m s1 s2,
  linked E self gens pop count calls hs ->
  nth_error hs n = Some s1 -> nth_error hs m = Some s2 -> (n <= m)%nat ->
  gen_evaluations s1 <= gen_evaluations s2.
Proof.
  induction hs as [|s0 hs IH]; intros gens pop count calls n m s1 s2 Hl H1 H2 Hnm;
    [destruct n; discriminate|].
  destruct gens as [|g gens]; [destruct Hl|].
  destruct Hl as (Hp & _ & Hrest).
  destruct n as [|n].
  - cbn in H1. injection H1 as ->. destruct m as [|m].
    + cbn in H2. injection H2 as ->. lia.
    + cbn in H2. apply nth_error_In in H2.
      apply (linked_evaluations_lower _ _ _ _ _ _ Hrest H2).
  - destruct m as [|m]; [lia|]. cbn in H1, H2.
    eapply IH; try eassumption. lia.
Qed.

End Reports.

(** X14: without a reporter nothing is reported.  With a reporter there
    is exactly one report per completed generation, in generation order:
    the report at position n carries the generation index n, the genotype
    of its best candidate and the fitness of that genotype; a terminal
    report is the last one; and the evaluation counts of the reports never
    decrease. *)
Theorem reports_follow_generations (E : Env) (self : EvoPy) (r : Rng E) :
  (reporter self = false -> reported (snd (run E self (fresh E r))) = []) /\
  (reporter self = true ->
   length (reported (snd (run E self (fresh E r)))) =
     length (history (snd (run E self (fresh E r)))) /\
   forall n rp,
     nth_error (reported (snd (run E self (fresh E r)))) n = Some rp ->
     rep_generation rp = Z.of_nat n /\
     rep_best_genotype rp = genotype (rep_best rp) /\
     rep_best_fitness rp = Some (fitness_function E (rep_best_genotype rp)) /\
     (rep_terminal rp = true ->
      length (reported (snd (run E self (fresh E r)))) = S n) /\
     (forall m rq,
        (n <= m)%nat ->
        nth_error (reported (snd (run E self (fresh E r)))) m = Some rq ->
        rep_evaluations rp <= rep_evaluations rq)).
Proof.
  destruct (run_history E self r) as (pop0 & Hl & Hrep & _).
  split.
  - intro Hno. rewrite Hrep.
    eapply delivered_without_reporter; eassumption.
  - intro Hreporter.
    assert (Hlen : length (reported (snd (run E self (fresh E r)))) =
                   length (history (snd (run E self (fresh E r))))).
    { rewrite Hrep. eapply delivered_length; eassumption. }
    split; [exact Hlen|].
    intros n rp Hn. rewrite Hrep in Hn.
    destruct (delivered_nth E self _ Hreporter _ _ _ _ _ _ Hl Hn)
      as (s & Hs & _ & Hg & Hev & Hb & Hgeno & Hfit & Hterm).
    destruct (linked_pass E self _ _ _ _ _ _ Hl (nth_error_In _ _ Hs))
      as (gi & p & c & k & Hp).
    split; [|split; [|split; [|split]]].
    + rewrite Hg. apply (range_nth (generations self)).
      eapply linked_index; eassumption.
    + rewrite Hgeno, Hb. reflexivity.
    + rewrite Hfit, Hgeno. apply (pass_best_evaluated E self Hp).
    + intro Ht. rewrite Hterm in Ht. rewrite Hlen.
      eapply linked_stop_position; eassumption.
    + intros m rq Hnm Hm. rewrite Hrep in Hm.
      destruct (delivered_nth E self _ Hreporter _ _ _ _ _ _ Hl Hm)
        as (s2 & Hs2 & _ & _ & Hev2 & _).
      rewrite Hev, Hev2.
      eapply linked_evaluations_monotone; eassumption.
Qed.

(** The three reports of [Edge.three_generations]: the generations 0, 1
    and 2, the evaluation counts 6, 11 and 17, the last one terminal. *)
Lemma reports_follow_generations_example :
  reporter Edge.three_generations = true /\
  map (fun p => (rep_generation p, rep_evaluations p, rep_terminal p))
      (reported (Demo.final Edge.three_generations)) =
    [(0, 6, false); (1, 11, false); (2, 17, true)] /\
  length (reported (Demo.final Edge.three_generations)) =
    length (history (Demo.final Edge.three_generations)).
Proof.
  split; [reflexivity|]. split; [vm_compute; reflexivity|].
  exact (proj1 (proj2 (reports_follow_generations Demo.env Edge.three_generations
                         0%nat) eq_refl)).
Defined.

(** ** The evaluation budget *)

(** X15: the evaluation budget is tested once per generation, after the
    evaluation, so it can be overshot by at most one generation: with a
    budget [limit] and a population size P of at least 1, a generation
    after the first one starts with a counter below [limit] and ends with
    a counter of at most [limit - 1 + (max(num_children, 0) + 1) * P]. *)
Theorem evaluation_budget_overshoot (E : Env) (self : EvoPy) (r : Rng E)
    (limit : Z) (n : nat) (s : Snapshot) :
  max_evaluations self = Some limit ->
  1 <= population_size self ->
  nth_error (history (snd (run E self (fresh E r)))) (S n) = Some s ->
  gen_evaluations s - Z.of_nat (length (gen_ranked s)) < limit /\
  gen_evaluations s <=
    limit - 1 + (Z.of_nat (Z.to_nat (num_children self)) + 1) * population_size self.
Proof.
  intros Hm HP Hs.
  destruct (run_history E self r) as (pop0 & Hl & _).
  destruct (nth_error (history (snd (run E self (fresh E r)))) n) as [s1|] eqn:H1.
  - destruct (linked_adjacent E self _ _ _ _ _ _ _ _ Hl H1 Hs) as (Hcont & g & Hp).
    destruct (linked_pass E self _ _ _ _ _ _ Hl (nth_error_In _ _ H1))
      as (g1 & p1 & c1 & k1 & Hp1).
    assert (Hbelow : gen_evaluations s1 < limit).
    { destruct (Z_lt_le_dec (gen_evaluations s1) limit) as [Hlt|Hge]; [exact Hlt|].
      assert (Hstop : gen_should_stop s1 = true).
      { apply (pass_stop Hp1). right; right; left. exists limit. split; assumption. }
      congruence. }
    pose proof (pass_evaluations Hp) as Hev.
    pose proof (pass_union_size E self Hp) as Hunion.
    assert (Hch : length (gen_children s) =
                  (Z.to_nat (num_children self) * length (gen_population s1))%nat).
    { destruct (pass_children Hp) as [rng ->]. apply reproduce_rounds_length. }
    assert (Hsv : (length (gen_survivors s) <= length (gen_population s1))%nat).
    { rewrite (pass_survivors Hp). apply age_population_shorter. }
    assert (Hpop : Z.of_nat (length (gen_population s1)) <= population_size self).
    { rewrite (pass_population Hp1). apply slice_to_length. exact HP. }
    split; [lia|].
    rewrite Hev, Hunion, Hch. nia.
  - exfalso. apply nth_error_None in H1.
    assert (Hlt : (S n < length (history (snd (run E self (fresh E r)))))%nat)
      by (apply nth_error_Some; congruence).
    lia.
Qed.

(** In the budgeted run (a budget of 5, two candidates, one child each)
    the second generation starts at 4 and ends at 7, not above
    [5 - 1 + 2 * 2]. *)
Lemma evaluation_budget_overshoot_example :
  exists s,
    Demo.snapshot Demo.budgeted 1 = Some s /\
    gen_evaluations s = 7 /\
    gen_evaluations s - Z.of_nat (length (gen_ranked s)) < 5 /\
    gen_evaluations s <= 5 - 1 + (1 + 1) * 2.
Proof.
  destruct (Demo.snapshot Demo.budgeted 1) as [s|] eqn:Hs;
    [|vm_compute in Hs; discriminate].
  assert (HP : 1 <= population_size Demo.budgeted) by (cbn; lia).
  destruct (evaluation_budget_overshoot Demo.env Demo.budgeted 0%nat 5 0 s
              eq_refl HP Hs) as [Hstart Hend].
  exists s. split; [reflexivity|]. split.
  - vm_compute in Hs. injection Hs as <-. reflexivity.
  - split; [exact Hstart|exact Hend].
Defined.
